(** * simple_agent: the bounded tool-call loop and the code-block runner

    A shallow embedding of [src/simple_agent/main.py].  The function
    [run_agent] talks to three outside parties (the completion provider, the
    [Faker] name generator and the container runtime) and keeps its own
    mutable state (the [messages] list, the global [TOOLS] object).  Both are
    made explicit here: the outside parties are the fields of the class
    [Env], the mutable state is the record [state], and the body of
    [run_agent] is written in a state-and-exception monad [M]. *)

From stdpp Require Import base option list sorting gmap strings.
From Stdlib Require Import ZArith Ascii Lia.
From Stdlib Require String.

Set Warnings "-register-all".
Open Scope Z_scope.
Open Scope string_scope.
Open Scope list_scope.

(** ** Python strings: the operations the program uses *)

Module Str.

(** [s.startswith(p)] *)
Fixpoint startswith (p s : string) : bool :=
  match p, s with
  | EmptyString, _ => true
  | String _ _, EmptyString => false
  | String a p', String b s' => if Ascii.eqb a b then startswith p' s' else false
  end.

(** [s[n:]] *)
Fixpoint drop (n : nat) (s : string) : string :=
  match n, s with
  | O, _ => s
  | S _, EmptyString => EmptyString
  | S n', String _ s' => drop n' s'
  end.

(** [s[:n]] *)
Fixpoint take (n : nat) (s : string) : string :=
  match n, s with
  | O, _ => EmptyString
  | S _, EmptyString => EmptyString
  | S n', String a s' => String a (take n' s')
  end.

(** [s.find(sub)], with [None] for Python's [-1] *)
Fixpoint find (sub s : string) : option nat :=
  if startswith sub s then Some O
  else match s with
       | EmptyString => None
       | String _ s' => S <$> find sub s'
       end.

(** [sub in s] *)
Definition contains (sub s : string) : bool :=
  match find sub s with Some _ => true | None => false end.

(** [s.split(sep, maxsplit=1)]: cut at the first occurrence of [sep], if
    there is one. *)
Definition split1 (sep s : string) : list string :=
  match find sep s with
  | None => [s]
  | Some i => [take i s; drop (i + String.length sep) s]
  end.

(** [sub] occurs in [s] at index [i]; the first such index. *)
Definition occurs_at (sub s : string) (i : nat) : Prop :=
  (i <= String.length s)%nat /\ startswith sub (drop i s) = true.

Definition first_occurrence (sub s : string) (i : nat) : Prop :=
  occurs_at sub s i /\ forall j, (j < i)%nat -> ~ occurs_at sub s j.

End Str.

(** [str(x)] for an optional text: [None] prints as the word None. *)
Definition py_str (x : option string) : string :=
  match x with Some s => s | None => "None" end.

(** ** Data model *)

(** Values produced by [json.loads], also used for the [parameters] schema
    of a tool descriptor. *)
Inductive json :=
| JNull
| JBool (b : bool)
| JInt (z : Z)
| JFloat (repr : string)
| JStr (s : string)
| JArr (items : list json)
| JObj (fields : list (string * json)).

(** [type(v).__name__] for a decoded value. *)
Definition py_type_name (v : json) : string :=
  match v with
  | JNull => "NoneType"
  | JBool _ => "bool"
  | JInt _ => "int"
  | JFloat _ => "float"
  | JStr _ => "str"
  | JArr _ => "list"
  | JObj _ => "dict"
  end.

(** One entry of [TOOLS]:
    [{"type": ..., "function": {"name": ..., "description": ..., "parameters": ...}}] *)
Record function_descriptor := mkFunctionDescriptor {
  fd_name : string;
  fd_description : string;
  fd_parameters : json }.

Record tool := mkTool {
  tool_type : string;
  tool_function : function_descriptor }.

(** The initial value of the module-level [TOOLS]. *)
Definition TOOLS : list tool :=
  [ {| tool_type := "function";
       tool_function :=
         {| fd_name := "make_random_name";
            fd_description := "Generate a random name";
            fd_parameters :=
              JObj [("type", JStr "object"); ("properties", JObj [])] |} |} ].

(** [tool_call.id], [tool_call.function.name], [tool_call.function.arguments] *)
Record function_call := mkFunctionCall {
  fn_name : string;
  fn_arguments : string }.

Record tool_call := mkToolCall {
  tc_id : string;
  tc_function : function_call }.

(** An element of [messages]: the seed and tool-result dictionaries and the
    provider's message objects alike. *)
Record message := mkMessage {
  role : string;
  content : option string;
  tool_call_id : option string;
  name : option string;
  tool_calls : option (list tool_call) }.

Definition user_message (text : string) : message :=
  {| role := "user"; content := Some text; tool_call_id := None;
     name := None; tool_calls := None |}.

Definition tool_message (id function_name function_response : string) : message :=
  {| role := "tool"; content := Some function_response;
     tool_call_id := Some id; name := Some function_name; tool_calls := None |}.

(** Truth value of [message.tool_calls]: [None] and the empty list are false. *)
Definition has_tool_calls (m : message) : bool :=
  match tool_calls m with
  | None | Some [] => false
  | Some (_ :: _) => true
  end.

(** The list the [for] statement iterates over. *)
Definition tool_calls_of (m : message) : list tool_call :=
  match tool_calls m with Some l => l | None => [] end.

(** The keyword arguments of [client.containers.run]. *)
Record sandbox_request := mkSandboxRequest {
  image : string;
  command : list string;
  capture_stdout : bool;
  capture_stderr : bool;
  remove : bool;
  network_disabled : bool;
  mem_limit : string;
  cpu_quota : Z }.

Inductive exn :=
| ValueError (msg : string)
| JSONDecodeError (doc : string)
| TypeError (msg : string)
| KeyError (key : string)
| IndexError (msg : string).

(** How a computation ends: with a value, with an exception, or cut short
    because the loop was given too little fuel. *)
Inductive outcome (A : Type) :=
| Ok (a : A)
| Raise (e : exn)
| OutOfFuel.
Arguments Ok {A} a.
Arguments Raise {A} e.
Arguments OutOfFuel {A}.

(** ** The outside world *)

(** What [run_agent] consumes.  [completion] gets the model, the message
    list, the tool list it is handed and the tool-choice policy; it answers
    with a message (the program only ever reads
    [response.choices[0].message], so a response is identified with it) and
    tells what it left in the tool list it was handed (the provider binding
    writes into that object).  [faker_name n] is the name drawn on the
    [n]-th call of [Faker().name()].  Transport and container failures are
    not part of this interface: the properties below are about the
    responses the provider gives. *)
Class Env := {
  provider : Type;
  supports_function_calling : string -> bool;
  completion : provider -> string -> list message -> list tool -> string ->
               provider * message * list tool;
  faker_name : nat -> string;
  json_loads : string -> option json;
  containers_run : sandbox_request -> string }.

(** One provider call, as seen from the caller: the keyword arguments (the
    tool list by address and by the value it held when handed over), the
    response, and the value bound to [TOOLS] when the call returned. *)
Record completion_record := mkCompletionRecord {
  call_model : string;
  call_messages : list message;
  call_tools_ref : nat;
  call_tools : list tool;
  call_tool_choice : string;
  call_response : message;
  call_TOOLS_after : list tool }.

(** The callables reachable through [globals()]. *)
Inductive callable := Fn_make_random_name.

Definition globals (key : string) : option callable :=
  if String.eqb key "make_random_name" then Some Fn_make_random_name else None.

(** [possible_functions], computed from the current value of [TOOLS]. *)
Definition possible_functions_of (tools : list tool) : list string :=
  map (fun t => fd_name (tool_function t))
      (filter (fun t => tool_type t = "function") tools).

(** The address of the object bound to the global name [TOOLS]. *)
Definition tools_loc : nat := 0%nat.

Definition OPEN : string := "<execute_python>".
Definition CLOSE : string := "</execute_python>".

(** [s.split(OPEN, maxsplit=1)[1].split(CLOSE, maxsplit=1)[0]] *)
Definition extract_code (message_content : string) : option string :=
  match Str.split1 OPEN message_content !! 1%nat with
  | None => None
  | Some after => Str.split1 CLOSE after !! 0%nat
  end.

(** [code] is the part of [text] strictly between its first opening
    delimiter and the first closing delimiter after it. *)
Definition between_delimiters (text code : string) : Prop :=
  exists i j,
    Str.first_occurrence OPEN text i /\
    Str.first_occurrence CLOSE (Str.drop (i + String.length OPEN) text) j /\
    code = Str.take j (Str.drop (i + String.length OPEN) text).

Section Agent.
Context {E : Env}.

(** ** Program state *)

(** [messages] is the local list of [run_agent]; [heap] holds the tool
    lists by address ([TOOLS] at [tools_loc], every [deepcopy] at an address
    of its own; a stored value is a whole tree, so two addresses share
    nothing).  The remaining fields are logs of what the run did to the
    outside: provider calls, loop rounds entered (with the value of
    [callbacks]), tools invoked, container runs and printed lines. *)
Record state := mkState {
  messages : list message;
  heap : gmap nat (list tool);
  provider_state : provider;
  names_drawn : nat;
  completions : list completion_record;
  rounds : list Z;
  invoked : list string;
  sandbox_runs : list sandbox_request;
  stdout : list string }.

Definition init_state (p : provider) : state :=
  {| messages := []; heap := {[ tools_loc := TOOLS ]}; provider_state := p;
     names_drawn := 0%nat; completions := []; rounds := []; invoked := [];
     sandbox_runs := []; stdout := [] |}.

(** The value currently bound to [TOOLS]. *)
Definition TOOLS_of (st : state) : list tool := default [] (heap st !! tools_loc).

Definition responses (st : state) : list message :=
  call_response <$> completions st.

(** ** The monad: state, exceptions, and running out of fuel *)

Definition M (A : Type) : Type := state -> outcome A * state.

Definition ret {A} (a : A) : M A := fun st => (Ok a, st).

Definition bind {A B} (m : M A) (k : A -> M B) : M B := fun st =>
  match m st with
  | (Ok a, st') => k a st'
  | (Raise e, st') => (Raise e, st')
  | (OutOfFuel, st') => (OutOfFuel, st')
  end.

Definition raise {A} (e : exn) : M A := fun st => (Raise e, st).
Definition out_of_fuel {A} : M A := fun st => (OutOfFuel, st).
Definition get : M state := fun st => (Ok st, st).
Definition modify (f : state -> state) : M unit := fun st => (Ok tt, f st).

Notation "x <- m ;; k" := (bind m (fun x => k))
  (at level 100, m at next level, right associativity).
Notation "m ;;; k" := (bind m (fun _ => k))
  (at level 100, right associativity).

(** ** State updates, one per kind of effect *)

Definition set_messages (l : list message) (st : state) : state :=
  {| messages := l; heap := heap st; provider_state := provider_state st;
     names_drawn := names_drawn st; completions := completions st;
     rounds := rounds st; invoked := invoked st;
     sandbox_runs := sandbox_runs st; stdout := stdout st |}.

Definition log_round (callbacks : Z) (st : state) : state :=
  {| messages := messages st; heap := heap st; provider_state := provider_state st;
     names_drawn := names_drawn st; completions := completions st;
     rounds := rounds st ++ [callbacks]; invoked := invoked st;
     sandbox_runs := sandbox_runs st; stdout := stdout st |}.

Definition log_invoked (function_name : string) (st : state) : state :=
  {| messages := messages st; heap := heap st; provider_state := provider_state st;
     names_drawn := S (names_drawn st); completions := completions st;
     rounds := rounds st; invoked := invoked st ++ [function_name];
     sandbox_runs := sandbox_runs st; stdout := stdout st |}.

Definition log_sandbox (r : sandbox_request) (st : state) : state :=
  {| messages := messages st; heap := heap st; provider_state := provider_state st;
     names_drawn := names_drawn st; completions := completions st;
     rounds := rounds st; invoked := invoked st;
     sandbox_runs := sandbox_runs st ++ [r]; stdout := stdout st |}.

Definition log_print (line : string) (st : state) : state :=
  {| messages := messages st; heap := heap st; provider_state := provider_state st;
     names_drawn := names_drawn st; completions := completions st;
     rounds := rounds st; invoked := invoked st;
     sandbox_runs := sandbox_runs st; stdout := stdout st ++ [line] |}.

(** [messages.append(m)] *)
Definition append (m : message) : M unit :=
  modify (fun st => set_messages (messages st ++ [m]) st).

(** [print(line)] *)
Definition print (line : string) : M unit := modify (log_print line).

(** ** The provider call

    [litellm.completion(model=model, messages=messages, tools=deepcopy(TOOLS),
    tool_choice="auto")].  [deepcopy] builds a new object, at an address not
    in use, holding the value read from [TOOLS]; the provider is handed that
    object and whatever it leaves there is stored back at that address. *)
Definition litellm_completion (model : string) : M message := fun st =>
  let copy_ref := fresh (dom (heap st)) in
  let copy := TOOLS_of st in
  let '(p', response, tools_after) :=
    completion (provider_state st) model (messages st) copy "auto" in
  let heap' := <[copy_ref := tools_after]> (<[copy_ref := copy]> (heap st)) in
  (Ok response,
   {| messages := messages st;
      heap := heap';
      provider_state := p';
      names_drawn := names_drawn st;
      completions := completions st ++
        [ {| call_model := model; call_messages := messages st;
             call_tools_ref := copy_ref; call_tools := copy;
             call_tool_choice := "auto"; call_response := response;
             call_TOOLS_after := default [] (heap' !! tools_loc) |} ];
      rounds := rounds st; invoked := invoked st;
      sandbox_runs := sandbox_runs st; stdout := stdout st |}).

(** ** Tool resolution (lines 113-128) *)

(** [make_random_name()]: the next name of the generator. *)
Definition make_random_name : M string := fun st =>
  (Ok (faker_name (names_drawn st)), log_invoked "make_random_name" st).

(** The call of [function_to_call] with [function_args] unpacked as keyword
    arguments: what is unpacked must be a mapping, and [make_random_name]
    takes no keyword.  Both failures are the interpreter's own [TypeError];
    the wording of its messages is indicative. *)
Definition call (function_to_call : callable) (function_args : json) : M string :=
  match function_to_call, function_args with
  | Fn_make_random_name, JObj [] => make_random_name
  | Fn_make_random_name, JObj ((k, _) :: _) =>
      raise (TypeError ("make_random_name() got an unexpected keyword argument '"
                        +:+ k +:+ "'"))
  | Fn_make_random_name, v =>
      raise (TypeError ("make_random_name() argument after ** must be a mapping, not "
                        +:+ py_type_name v))
  end.

(** The body of [for tool_call in message.tool_calls]. *)
Definition resolve_tool_call (possible_functions : list string)
    (tool_call : tool_call) : M unit :=
  let function_name := fn_name (tc_function tool_call) in
  if negb (bool_decide (function_name ∈ possible_functions)) then
    raise (ValueError ("Requested to call unrecognized function " +:+ function_name))
  else
    function_to_call <-
      match globals function_name with
      | Some f => ret f
      | None => raise (KeyError function_name)
      end ;;
    function_args <-
      match json_loads (fn_arguments (tc_function tool_call)) with
      | Some v => ret v
      | None => raise (JSONDecodeError (fn_arguments (tc_function tool_call)))
      end ;;
    function_response <- call function_to_call function_args ;;
    append (tool_message (tc_id tool_call) function_name function_response).

Fixpoint for_tool_calls (possible_functions : list string)
    (tcs : list tool_call) : M unit :=
  match tcs with
  | [] => ret tt
  | tool_call :: rest =>
      resolve_tool_call possible_functions tool_call ;;;
      for_tool_calls possible_functions rest
  end.

(** ** The while loop (lines 105-135) *)

(** Lines 109-128, the tool-resolving part of one round.  The first step
    only notes in the log that a round was entered, with the value of
    [callbacks]. *)
Definition resolve_round (callbacks : Z) (message : message) : M unit :=
  modify (log_round callbacks) ;;;
  append message ;;;
  st <- get ;;
  let possible_functions := possible_functions_of (TOOLS_of st) in
  for_tool_calls possible_functions (tool_calls_of message).

(** [fuel] bounds the number of times the body may run; the guard is the
    source's, on the integers [callbacks] and [max_callbacks]. *)
Fixpoint while_loop (fuel : nat) (model : string) (max_callbacks : Z)
    (response : message) (callbacks : Z) : M message :=
  let message := response in
  if has_tool_calls message && (callbacks <=? max_callbacks)%Z then
    match fuel with
    | O => out_of_fuel
    | S fuel' =>
        resolve_round callbacks message ;;;
        response <- litellm_completion model ;;
        while_loop fuel' model max_callbacks response (callbacks + 1)
    end
  else ret response.

(** ** Reflection (lines 136-148) *)

Definition reflect_prompt (last_output : option string) : string :=
  "Please reflect on your last output, which was '" +:+ py_str last_output +:+
  "'. If you can improve it, please do so and provide a new response.".

Definition reflection (model : string) (response : message) : M message :=
  append (user_message (reflect_prompt (content response))) ;;;
  litellm_completion model.

(** ** Printing and the sandbox run (lines 149-173) *)

Definition sandbox_request_for (code : string) : sandbox_request :=
  {| image := "python:3.10-slim"; command := ["python"; "-c"; code];
     capture_stdout := true; capture_stderr := true; remove := true;
     network_disabled := true; mem_limit := "128m"; cpu_quota := 50000 |}.

(** The condition of the final [if]. *)
Definition should_execute (execute_code : bool) (message_content : option string) : bool :=
  execute_code &&
  match message_content with
  | None => false
  | Some text => Str.contains OPEN text && Str.contains CLOSE text
  end.

(** In the branch taken when the condition holds [message_content] is a
    string, so [py_str] gives it back unchanged. *)
Definition report (execute_code : bool) (response : message) : M unit :=
  let message_content := content response in
  print ">>> LLM Response:" ;;;
  print (py_str message_content) ;;;
  if should_execute execute_code message_content then
    code <-
      match extract_code (py_str message_content) with
      | Some code => ret code
      | None => raise (IndexError "list index out of range")
      end ;;
    modify (log_sandbox (sandbox_request_for code)) ;;;
    let output := containers_run (sandbox_request_for code) in
    print ">>> Code execution output:" ;;;
    print output
  else ret tt.

(** ** [run_agent] *)

Definition seed_messages (prompt : string) : list message :=
  [ user_message
      ("Please include your name if asked. " +:+
       "You can get your name using the ``make_random_name`` tool.");
    user_message
      (String (ascii_of_nat 10)
         ("                If I request code, please return it as python delimited with " +:+
          String (ascii_of_nat 34) (String (ascii_of_nat 10)
         ("                " +:+ String (ascii_of_nat 34)
          ("<execute_python> and </execute_python> tags." +:+
           String (ascii_of_nat 34) (String (ascii_of_nat 10) "                "))))));
    user_message prompt ].

(** Lines 76-135: seed messages, capability check, first call, loop. *)
Definition tool_call_loop (fuel : nat) (prompt model : string)
    (max_callbacks : Z) : M message :=
  modify (set_messages (seed_messages prompt)) ;;;
  if negb (supports_function_calling model) then
    raise (ValueError "You must choose a model that supports function calling")
  else
    response <- litellm_completion model ;;
    let callbacks := 0 in
    while_loop fuel model max_callbacks response callbacks.

Definition run_agent (fuel : nat) (prompt model : string) (max_callbacks : Z)
    (reflect execute_code : bool) : M unit :=
  response <- tool_call_loop fuel prompt model max_callbacks ;;
  response <- (if reflect then reflection model response else ret response) ;;
  report execute_code response.

(** ** Vocabulary of the properties *)

(** The errors of lines 96-97 and 116-117. *)
Definition unsupported_model : exn :=
  ValueError "You must choose a model that supports function calling".

Definition unrecognized (function_name : string) : exn :=
  ValueError ("Requested to call unrecognized function " +:+ function_name).

(** A function name of the registry, as [TOOLS] declares it. *)
Definition known (function_name : string) : Prop :=
  function_name ∈ possible_functions_of TOOLS.

(** The arguments of a tool call parse as JSON. *)
Definition valid_json (tc : tool_call) : Prop :=
  is_Some (json_loads (fn_arguments (tc_function tc))).

(** A tool call that resolves: a known name, and arguments that parse to
    the empty object, the only keyword set [make_random_name] takes. *)
Definition accepted (tc : tool_call) : Prop :=
  known (fn_name (tc_function tc)) /\
  json_loads (fn_arguments (tc_function tc)) = Some (JObj []).

(** The tool-result messages for the calls [tcs], the generator having
    been used [n] times before. *)
Fixpoint tool_results (n : nat) (tcs : list tool_call) : list message :=
  match tcs with
  | [] => []
  | tc :: rest =>
      tool_message (tc_id tc) (fn_name (tc_function tc)) (faker_name n)
      :: tool_results (S n) rest
  end.

(** The state once the calls [tcs] have all been resolved. *)
Definition after_tools (st : state) (tcs : list tool_call) : state :=
  {| messages := messages st ++ tool_results (names_drawn st) tcs;
     heap := heap st; provider_state := provider_state st;
     names_drawn := (length tcs + names_drawn st)%nat;
     completions := completions st; rounds := rounds st;
     invoked := invoked st ++ ((fun tc => fn_name (tc_function tc)) <$> tcs);
     sandbox_runs := sandbox_runs st; stdout := stdout st |}.

(** What tool resolution leaves alone. *)
Definition same_outside (st st' : state) : Prop :=
  heap st' = heap st /\ provider_state st' = provider_state st /\
  completions st' = completions st /\ rounds st' = rounds st /\
  sandbox_runs st' = sandbox_runs st /\ stdout st' = stdout st.

(** Every provider call so far was handed an object other than [TOOLS],
    holding the declared descriptors, and left [TOOLS] as declared. *)
Definition copy_discipline (c : completion_record) : Prop :=
  call_tools_ref c <> tools_loc /\ call_tools c = TOOLS /\
  call_TOOLS_after c = TOOLS.

Definition tools_intact (st : state) : Prop :=
  heap st !! tools_loc = Some TOOLS /\
  Forall (fun c => copy_discipline c /\ call_tools_ref c ∈ dom (heap st))
         (completions st) /\
  NoDup (call_tools_ref <$> completions st).

(** The first [n] values of the round counter. *)
Definition counter_values (n : nat) : list Z := Z.of_nat <$> seq 0 n.

(** Among the responses received: those that carry tool calls, those that
    carry none. *)
Definition tool_bearing (rs : list message) : list message :=
  filter (fun r => has_tool_calls r = true) rs.

Definition plain (rs : list message) : list message :=
  filter (fun r => has_tool_calls r = false) rs.

(** The line printed under the response header. *)
Definition printed_answer (st : state) : option string := stdout st !! 1%nat.

(** The calls of a list of responses, in order. *)
Definition calls_of (rs : list message) : list tool_call :=
  rs ≫= tool_calls_of.

(** What resolving the responses [rs] one after the other appends to the
    history, the generator having been used [n] times before: each
    response, followed by the results of its calls. *)
Fixpoint history_of (n : nat) (rs : list message) : list message :=
  match rs with
  | [] => []
  | r :: rest =>
      r :: tool_results n (tool_calls_of r) ++
      history_of (length (tool_calls_of r) + n) rest
  end.





(** A provider that asks for the tool, with arguments it accepts, whatever
    it is sent. *)
Definition always_calls : Prop :=
  forall p model msgs tools choice,
    has_tool_calls (completion p model msgs tools choice).1.2 = true /\
    Forall accepted (tool_calls_of (completion p model msgs tools choice).1.2).

End Agent.

(** ** A scripted world, for running the program on concrete inputs *)

Module Demo.

Definition dq : string := String (ascii_of_nat 34) "".

(** [json.loads] on the documents used below; every other document is
    treated as malformed. *)
Definition loads (doc : string) : option json :=
  if String.eqb doc "{}" then Some (JObj [])
  else if String.eqb doc "[]" then Some (JArr [])
  else if String.eqb doc ("{" +:+ dq +:+ "x" +:+ dq +:+ ": 1}")
       then Some (JObj [("x", JInt 1)])
  else None.

Definition assistant (text : option string) (calls : list tool_call) : message :=
  {| role := "assistant"; content := text; tool_call_id := None; name := None;
     tool_calls := match calls with [] => None | _ => Some calls end |}.

Definition call_of (id function_name arguments : string) : tool_call :=
  {| tc_id := id;
     tc_function := {| fn_name := function_name; fn_arguments := arguments |} |}.

(** The provider plays back a script of responses (an empty assistant
    message once the script is over) and empties the tool list it is
    handed.  Models whose name starts with gemini/ support tools. *)
Definition env : Env :=
  {| provider := list message;
     supports_function_calling := Str.startswith "gemini/";
     completion := fun script _ _ _ _ =>
       match script with
       | [] => ([], assistant None [], [])
       | r :: script' => (script', r, [])
       end;
     faker_name := fun n => nth n ["Jordan Lee"; "Alex Kim"] "Sam Doe";
     json_loads := loads;
     containers_run := fun r => "sandbox output" |}.

Definition gemini : string := "gemini/gemini-2.5-flash-lite".

(** The example of the specification: one tool call, then the answer. *)
Definition script_name : list message :=
  [ assistant None [call_of "call_1" "make_random_name" "{}"];
    assistant (Some "My name is Jordan Lee.") [] ].

(** A plain answer, then a reply to the reflection prompt that asks for a
    tool. *)
Definition script_reflect_calls : list message :=
  [ assistant (Some "A") [];
    assistant (Some "B") [call_of "call_1" "make_random_name" "{}"] ].

(** A call of the known tool with a keyword it does not take. *)
Definition script_keyword : list message :=
  [ assistant None
      [call_of "call_1" "make_random_name" ("{" +:+ dq +:+ "x" +:+ dq +:+ ": 1}")] ].

(** Malformed arguments ahead of an unknown function. *)
Definition script_masked : list message :=
  [ assistant None
      [ call_of "call_1" "make_random_name" "{";
        call_of "call_2" "launch" "{}" ] ].

(** Two good calls, an unknown function, one more good call. *)
Definition good_1 : tool_call := call_of "call_1" "make_random_name" "{}".
Definition good_2 : tool_call := call_of "call_2" "make_random_name" "{}".
Definition bad_3 : tool_call := call_of "call_3" "launch" "{}".
Definition good_4 : tool_call := call_of "call_4" "make_random_name" "{}".
Definition partial_message : message :=
  assistant None [good_1; good_2; bad_3; good_4].

(** A response that asks for the tool, to be played again and again. *)
Definition always_calling : message :=
  assistant None [call_of "call_1" "make_random_name" "{}"].

(** Answers with code blocks. *)
Definition two_blocks : string :=
  "pre <execute_python>print(1)</execute_python> post <execute_python>ignored</execute_python>".

Definition close_first : string :=
  "done</execute_python> then <execute_python>print(2)".

(** A run from the initial state against a script. *)
Definition run (script : list message) (prompt model : string)
    (max_callbacks : Z) (reflect execute_code : bool) :=
  @run_agent env 10 prompt model max_callbacks reflect execute_code
    (@init_state env script).

(** A provider that answers every call with [always_calling]. *)
Definition insistent : Env :=
  {| provider := unit;
     supports_function_calling := Str.startswith "gemini/";
     completion := fun p _ _ _ _ => (p, always_calling, []);
     faker_name := fun n => nth n ["Jordan Lee"; "Alex Kim"] "Sam Doe";
     json_loads := loads;
     containers_run := fun r => "sandbox output" |}.

(** Malformed arguments, and a value that is no mapping, after a good call. *)
Definition malformed_message : message :=
  assistant None [good_1; call_of "call_2" "make_random_name" "{"; good_4].

Definition no_mapping_message : message :=
  assistant None [good_1; call_of "call_2" "make_random_name" "[]"; good_4].

(** An opening delimiter inside a block. *)
Definition nested_open : string :=
  "a<execute_python>b<execute_python>c</execute_python>d</execute_python>".

(** An answer with a block, after one tool call. *)
Definition script_code : list message :=
  [ assistant None [call_of "call_1" "make_random_name" "{}"];
    assistant (Some two_blocks) [] ].

End Demo.

(** ** Facts about the string operations *)

Module StrFacts.
Import Str.

Lemma str_drop_0 s : drop 0 s = s.
Proof. by destruct s. Qed.

Lemma append_nil s : "" +:+ s = s.
Proof. reflexivity. Qed.

Lemma append_cons a s t : String a s +:+ t = String a (s +:+ t).
Proof. reflexivity. Qed.

Lemma str_drop_drop n m s : drop m (drop n s) = drop (n + m) s.
Proof.
  revert s; induction n as [|n IH]; intros s; simpl.
  - done.
  - destruct s as [|a s]; simpl; [by destruct m|apply IH].
Qed.

Lemma str_length_drop n s : String.length (drop n s) = (String.length s - n)%nat.
Proof.
  revert s; induction n as [|n IH]; intros [|a s]; simpl; auto with lia.
Qed.

Lemma str_length_app a b :
  String.length (a +:+ b) = (String.length a + String.length b)%nat.
Proof.
  induction a as [|c a IH]; rewrite ?append_nil, ?append_cons; simpl; auto.
Qed.

Lemma startswith_decompose p s :
  startswith p s = true -> s = p +:+ drop (String.length p) s.
Proof.
  revert s; induction p as [|a p IH]; intros s; simpl.
  - intros _. symmetry. apply str_drop_0.
  - destruct s as [|b s]; [done|].
    destruct (Ascii.eqb_spec a b) as [->|]; [|done].
    intros H. rewrite append_cons. simpl. f_equal. by apply IH.
Qed.

(** [find] returns the first index at which [sub] occurs. *)
Lemma find_Some sub s i :
  find sub s = Some i <-> first_occurrence sub s i.
Proof.
  revert i; induction s as [|a s IH]; intros i.
  - simpl. destruct (startswith sub "") eqn:Hp.
    + split.
      * intros [= <-]. split; [split; simpl; [lia|done]|]. intros j Hj; lia.
      * intros [[Hi Hs] Hfirst]. simpl in Hi. by replace i with 0%nat by lia.
    + split; [done|]. intros [[Hi Hs] _]. simpl in Hi.
      replace i with 0%nat in Hs by lia. simpl in Hs. congruence.
  - cbn [find]. destruct (startswith sub (String a s)) eqn:Hp.
    + split.
      * intros [= <-]. split; [split; simpl; [lia|done]|]. intros j Hj; lia.
      * intros [_ Hfirst]. destruct i as [|i]; [done|].
        exfalso. apply (Hfirst 0%nat); [lia|]. split; simpl; [lia|done].
    + destruct (find sub s) as [k|] eqn:Hf; simpl.
      * split.
        -- intros [= <-]. destruct (proj1 (IH k) eq_refl) as [[Hk Hs] Hfirst].
           split; [split; simpl; [lia|done]|].
           intros [|j] Hj [Hj1 Hj2]; simpl in Hj2; [congruence|].
           apply (Hfirst j); [lia|]. split; [simpl in Hj1; lia|done].
        -- intros [[Hi Hs] Hfirst]. destruct i as [|i]; simpl in Hs; [congruence|].
           f_equal. assert (Some k = Some i) as [= ->]; [|done].
           apply IH. split; [split; [simpl in Hi; lia|done]|].
           intros j Hj [Hj1 Hj2]. apply (Hfirst (S j)); [lia|].
           split; simpl; [lia|done].
      * split; [done|]. intros [[Hi Hs] Hfirst].
        destruct i as [|i]; simpl in Hs; [congruence|].
        assert (None = Some i) as [=]. apply IH.
        split; [split; [simpl in Hi; lia|done]|].
        intros j Hj [Hj1 Hj2]. apply (Hfirst (S j)); [lia|].
        split; simpl; [lia|done].
Qed.

Lemma find_None sub s :
  find sub s = None <-> forall i, ~ occurs_at sub s i.
Proof.
  induction s as [|a s IH].
  - simpl. destruct (startswith sub "") eqn:Hp.
    + split; [done|]. intros H. exfalso. apply (H 0%nat). split; simpl; [lia|done].
    + split; [|done]. intros _ i [Hi Hs]. simpl in Hi.
      replace i with 0%nat in Hs by lia. simpl in Hs. congruence.
  - cbn [find]. destruct (startswith sub (String a s)) eqn:Hp.
    + split; [done|]. intros H. exfalso. apply (H 0%nat). split; simpl; [lia|done].
    + destruct (find sub s) as [k|] eqn:Hf; simpl.
      * split; [done|]. intros H. exfalso.
        assert (first_occurrence sub s k) as [[Hk Hs] _] by by apply find_Some.
        apply (H (S k)). split; simpl; [lia|done].
      * split; [|done]. intros _ [|i] [Hi Hs]; simpl in Hs; [congruence|].
        apply (proj1 IH eq_refl i). split; [simpl in Hi; lia|done].
Qed.

Lemma contains_true sub s :
  contains sub s = true <-> exists i, occurs_at sub s i.
Proof.
  unfold contains. destruct (find sub s) as [i|] eqn:Hf.
  - split; [|done]. intros _. exists i. by apply find_Some in Hf as [? _].
  - split; [done|]. intros [i Hi]. exfalso. by apply (proj1 (find_None sub s) Hf i).
Qed.

Lemma contains_false sub s :
  contains sub s = false <-> forall i, ~ occurs_at sub s i.
Proof.
  unfold contains. destruct (find sub s) as [i|] eqn:Hf.
  - split; [done|]. intros H. apply find_Some in Hf as [Hi _]. by destruct (H i).
  - split; [|done]. intros _. by apply find_None.
Qed.

(** An occurrence in a suffix is an occurrence in the whole text. *)
Lemma occurs_at_drop sub s k j :
  (k <= String.length s)%nat ->
  occurs_at sub (drop k s) j -> occurs_at sub s (k + j).
Proof.
  intros Hk [Hj Hs]. rewrite str_length_drop in Hj. rewrite str_drop_drop in Hs.
  split; [lia|done].
Qed.

End StrFacts.

(** ** Facts about code extraction *)

Section Extraction.
Import Str StrFacts.

Lemma split1_found sep s i :
  find sep s = Some i ->
  split1 sep s = [take i s; drop (i + String.length sep) s].
Proof. unfold split1. by intros ->. Qed.

Lemma split1_head sep s :
  split1 sep s !! 0%nat =
  Some (match find sep s with Some j => take j s | None => s end).
Proof. unfold split1. by destruct (find sep s). Qed.

(** What [extract_code] returns once the opening delimiter is located. *)
Lemma extract_code_found text i :
  find OPEN text = Some i ->
  extract_code text =
  Some (let after := drop (i + String.length OPEN) text in
        match find CLOSE after with Some j => take j after | None => after end).
Proof.
  intros Hi. unfold extract_code. rewrite (split1_found _ _ _ Hi). simpl.
  apply split1_head.
Qed.

(** The two subscripts of line 158-160 never fail under the guard. *)
Lemma extract_code_is_Some text :
  contains OPEN text = true -> is_Some (extract_code text).
Proof.
  unfold contains. destruct (find OPEN text) as [i|] eqn:Hi; [|done].
  intros _. rewrite (extract_code_found _ _ Hi). eauto.
Qed.

Lemma extract_code_between text i j :
  first_occurrence OPEN text i ->
  first_occurrence CLOSE (drop (i + String.length OPEN) text) j ->
  extract_code text = Some (take j (drop (i + String.length OPEN) text)).
Proof.
  intros Hi%find_Some Hj%find_Some.
  rewrite (extract_code_found _ _ Hi). cbv zeta. by rewrite Hj.
Qed.

Lemma extract_code_unclosed text i :
  first_occurrence OPEN text i ->
  (forall q, occurs_at CLOSE text q -> (q < i)%nat) ->
  extract_code text = Some (drop (i + String.length OPEN) text).
Proof.
  intros Hi Hq. pose proof Hi as [[Hlen Hs] _]. apply find_Some in Hi.
  rewrite (extract_code_found _ _ Hi). cbv zeta.
  destruct (find CLOSE _) as [j|] eqn:Hj; [|done].
  apply find_Some in Hj as [Hj _]. exfalso.
  assert (i + String.length OPEN <= String.length text)%nat as Hle.
  { apply startswith_decompose in Hs.
    apply (f_equal String.length) in Hs.
    rewrite str_length_app, !str_length_drop in Hs.
    change (String.length OPEN) with 16%nat in *. lia. }
  apply occurs_at_drop in Hj; [|done]. apply Hq in Hj. lia.
Qed.

End Extraction.

(** ** Facts about printing and the sandbox run *)

Section Report.
Context {E : Env}.
Import Str StrFacts.

Lemma report_unfold execute_code response st :
  report execute_code response st =
  let st1 := log_print (py_str (content response))
               (log_print ">>> LLM Response:" st) in
  if should_execute execute_code (content response) then
    match extract_code (py_str (content response)) with
    | Some code =>
        (Ok tt,
         log_print (containers_run (sandbox_request_for code))
           (log_print ">>> Code execution output:"
              (log_sandbox (sandbox_request_for code) st1)))
    | None => (Raise (IndexError "list index out of range"), st1)
    end
  else (Ok tt, st1).
Proof.
  unfold report, bind, print, modify. simpl.
  destruct (should_execute _ _); [|done].
  by destruct (extract_code _).
Qed.

Lemma should_execute_true execute_code message_content :
  should_execute execute_code message_content = true <->
  execute_code = true /\
  exists text, message_content = Some text /\
    contains OPEN text = true /\ contains CLOSE text = true.
Proof.
  unfold should_execute. destruct execute_code, message_content as [text|]; simpl.
  - rewrite andb_true_iff. split.
    + intros [? ?]. eauto.
    + intros [_ (? & [= <-] & ? & ?)]. done.
  - split; [done|]. by intros [_ (? & ? & _)].
  - split; [done|]. by intros [? _].
  - split; [done|]. by intros [? _].
Qed.

(** The final phase never fails, and runs the sandbox at most once. *)
Lemma report_cases execute_code response st :
  (should_execute execute_code (content response) = false /\
   report execute_code response st =
     (Ok tt, log_print (py_str (content response))
               (log_print ">>> LLM Response:" st))) \/
  (exists text code,
     should_execute execute_code (content response) = true /\
     content response = Some text /\ extract_code text = Some code /\
     report execute_code response st =
       (Ok tt,
        log_print (containers_run (sandbox_request_for code))
          (log_print ">>> Code execution output:"
             (log_sandbox (sandbox_request_for code)
                (log_print text (log_print ">>> LLM Response:" st)))))).
Proof.
  rewrite report_unfold. cbv zeta.
  destruct (should_execute _ _) eqn:Hx; [right|left; done].
  pose proof Hx as Hx'. apply should_execute_true in Hx' as (_ & text & Ht & Ho & _).
  destruct (extract_code_is_Some _ Ho) as [code Hc].
  exists text, code. rewrite Ht. simpl. by rewrite Hc.
Qed.

End Report.

(** ** Facts about tool resolution *)

Section Tools.
Context {E : Env}.

Lemma possible_functions_TOOLS :
  possible_functions_of TOOLS = ["make_random_name"].
Proof. reflexivity. Qed.

Lemma known_iff function_name :
  known function_name <-> function_name = "make_random_name".
Proof.
  unfold known. rewrite possible_functions_TOOLS. apply list_elem_of_singleton.
Qed.

Lemma after_tools_nil st : after_tools st [] = st.
Proof. destruct st. unfold after_tools; simpl. by rewrite !app_nil_r. Qed.

Lemma after_tools_cons st tc rest :
  after_tools (after_tools st [tc]) rest = after_tools st (tc :: rest).
Proof.
  unfold after_tools; simpl. rewrite <- !app_assoc. simpl.
  by rewrite Nat.add_succ_r.
Qed.

(** A call of an unknown function stops at the membership test. *)
Lemma resolve_unknown tc st :
  ~ known (fn_name (tc_function tc)) ->
  resolve_tool_call (possible_functions_of TOOLS) tc st =
  (Raise (unrecognized (fn_name (tc_function tc))), st).
Proof.
  intros Hk. unfold resolve_tool_call.
  rewrite bool_decide_eq_false_2 by done. reflexivity.
Qed.

(** A call of a known function either resolves, and then its arguments were
    the empty object, or fails on its arguments, the state untouched. *)
Lemma resolve_known tc st :
  known (fn_name (tc_function tc)) ->
  (accepted tc /\
   resolve_tool_call (possible_functions_of TOOLS) tc st =
     (Ok tt, after_tools st [tc])) \/
  (~ accepted tc /\
   exists e, (forall f, e <> unrecognized f) /\
     resolve_tool_call (possible_functions_of TOOLS) tc st = (Raise e, st)).
Proof.
  intros Hk. pose proof (proj1 (known_iff _) Hk) as Hn.
  unfold resolve_tool_call, accepted.
  rewrite bool_decide_eq_true_2 by done. simpl.
  assert (globals (fn_name (tc_function tc)) = Some Fn_make_random_name) as ->
    by by rewrite Hn.
  unfold bind. simpl.
  destruct (json_loads _) as [v|] eqn:Hv; simpl.
  - destruct v as [| | | | | |[|[k x] fields]];
      try (right; split; [by intros [_ [=]]|eexists; split; [|reflexivity]; done]).
    left. split; [done|].
    unfold after_tools, make_random_name, append, modify, log_invoked. simpl.
    by rewrite Hn.
  - right. split; [by intros [_ [=]]|]. eexists; split; [|reflexivity]. done.
Qed.

Lemma resolve_accepted tc st :
  accepted tc ->
  resolve_tool_call (possible_functions_of TOOLS) tc st =
  (Ok tt, after_tools st [tc]).
Proof.
  intros Ha. destruct (resolve_known tc st) as [[_ ?]|[? _]]; [apply Ha|done..].
Qed.

(** Whatever the registry, one call leaves the outside alone and ends. *)
Lemma resolve_frame possible_functions tc st out st' :
  resolve_tool_call possible_functions tc st = (out, st') ->
  out <> OutOfFuel /\ same_outside st st'.
Proof.
  unfold resolve_tool_call, bind.
  destruct (negb _); [by intros [= <- <-]|].
  destruct (globals _) as [[]|]; simpl; [|by intros [= <- <-]].
  destruct (json_loads _) as [v|]; simpl; [|by intros [= <- <-]].
  destruct v as [| | | | | |[|[k x] fields]]; simpl; by intros [= <- <-].
Qed.

Lemma same_outside_trans st1 st2 st3 :
  same_outside st1 st2 -> same_outside st2 st3 -> same_outside st1 st3.
Proof. unfold same_outside. intuition congruence. Qed.

Lemma for_tool_calls_frame possible_functions tcs st out st' :
  for_tool_calls possible_functions tcs st = (out, st') ->
  out <> OutOfFuel /\ same_outside st st'.
Proof.
  revert st; induction tcs as [|tc rest IH]; intros st; simpl.
  - by intros [= <- <-].
  - unfold bind. destruct (resolve_tool_call _ _ _) as [o st1] eqn:H1.
    apply resolve_frame in H1 as [Ho H1].
    destruct o as [[]| |]; [|by intros [= <- <-]|done].
    intros [? ?]%IH. eauto using same_outside_trans.
Qed.

Lemma for_tool_calls_accepted tcs st :
  Forall accepted tcs ->
  for_tool_calls (possible_functions_of TOOLS) tcs st =
  (Ok tt, after_tools st tcs).
Proof.
  intros H; revert st; induction H as [|tc rest Htc _ IH]; intros st; simpl.
  - by rewrite after_tools_nil.
  - unfold bind. rewrite resolve_accepted by done.
    by rewrite IH, after_tools_cons.
Qed.

(** The loop over a list whose first unknown name is that of [bad]. *)
Lemma for_tool_calls_unknown pre bad post st :
  Forall accepted pre -> ~ known (fn_name (tc_function bad)) ->
  for_tool_calls (possible_functions_of TOOLS) (pre ++ bad :: post) st =
  (Raise (unrecognized (fn_name (tc_function bad))), after_tools st pre).
Proof.
  intros H Hbad; revert st; induction H as [|tc rest Htc _ IH]; intros st; simpl.
  - unfold bind. rewrite resolve_unknown by done. by rewrite after_tools_nil.
  - unfold bind. rewrite resolve_accepted by done.
    by rewrite IH, after_tools_cons.
Qed.

(** If that loop ends in the unrecognized-function error, the calls before
    [bad] were all resolved, and the error names [bad]. *)
Lemma for_tool_calls_unknown_inv pre bad post st f st' :
  Forall (fun tc => known (fn_name (tc_function tc))) pre ->
  ~ known (fn_name (tc_function bad)) ->
  for_tool_calls (possible_functions_of TOOLS) (pre ++ bad :: post) st =
    (Raise (unrecognized f), st') ->
  Forall accepted pre /\ f = fn_name (tc_function bad) /\
  st' = after_tools st pre.
Proof.
  intros H Hbad; revert st; induction H as [|tc rest Htc _ IH]; intros st; simpl.
  - unfold bind. rewrite resolve_unknown by done.
    intros [= Hf <-]. rewrite after_tools_nil.
    split; [done|]. split; [|done]. symmetry. by apply String.app_inj in Hf.
  - unfold bind.
    destruct (resolve_known tc st Htc) as [[Ha ->]|[_ (e & He & ->)]].
    + intros (Hrest & Hf & ->)%IH. rewrite after_tools_cons.
      split; [by constructor|done].
    + intros [= -> _]. by destruct (He f).
Qed.

(** A failing loop over known names means some call was not accepted. *)
Lemma for_tool_calls_raise tcs st e st' :
  for_tool_calls (possible_functions_of TOOLS) tcs st = (Raise e, st') ->
  ~ Forall accepted tcs.
Proof.
  intros H Ha. by rewrite for_tool_calls_accepted in H.
Qed.

End Tools.

(** ** Facts about the provider call and the loop *)

Section Loop.
Context {E : Env}.

Lemma tools_intact_TOOLS_of st : tools_intact st -> TOOLS_of st = TOOLS.
Proof. intros [H _]. unfold TOOLS_of. by rewrite H. Qed.

Lemma tools_intact_same st st' :
  heap st' = heap st -> completions st' = completions st ->
  tools_intact st -> tools_intact st'.
Proof. unfold tools_intact. by intros -> ->. Qed.

Lemma tools_intact_init p : tools_intact (init_state p).
Proof.
  split; [apply lookup_singleton_eq|]. split; [constructor|]. apply NoDup_nil_2.
Qed.

(** One provider call: it always answers, is logged with its response, and
    touches neither the history nor [TOOLS]. *)
Lemma litellm_completion_spec model st :
  exists r st',
    litellm_completion model st = (Ok r, st') /\
    messages st' = messages st /\ rounds st' = rounds st /\
    invoked st' = invoked st /\ names_drawn st' = names_drawn st /\
    sandbox_runs st' = sandbox_runs st /\ stdout st' = stdout st /\
    (exists c, completions st' = completions st ++ [c] /\
       call_response c = r /\ call_messages c = messages st /\
       call_model c = model) /\
    (tools_intact st -> tools_intact st').
Proof.
  unfold litellm_completion.
  destruct (completion _ _ _ _ _) as [[p' r] tools_after].
  eexists _, _. split; [reflexivity|]. simpl.
  do 6 (split; [reflexivity|]). split; [by eexists|].
  intros Hi. pose proof (tools_intact_TOOLS_of _ Hi) as HT.
  destruct Hi as (Hh & Hc & Hn).
  set (l := fresh (dom (heap st))).
  assert (l ∉ dom (heap st)) as Hl by apply is_fresh.
  assert (l <> tools_loc) as Hne.
  { intros ->. apply Hl, elem_of_dom. by rewrite Hh. }
  assert ((<[l:=tools_after]> (<[l:=TOOLS_of st]> (heap st)) : gmap nat (list tool))
            !! tools_loc = Some TOOLS) as Hh'.
  { by rewrite !lookup_insert_ne. }
  unfold tools_intact; simpl. split; [done|]. split.
  - apply Forall_app; split.
    + eapply Forall_impl; [exact Hc|]. intros c [? ?]. split; [done|].
      rewrite !dom_insert. set_solver.
    + constructor; [|constructor]. simpl. split.
      * unfold copy_discipline; simpl. by rewrite Hh'.
      * rewrite !dom_insert. set_solver.
  - rewrite fmap_app. simpl. apply NoDup_app. split; [done|]. split.
    + intros x Hx [->|[]%elem_of_nil]%elem_of_cons.
      apply list_elem_of_fmap in Hx as (c & -> & Hc').
      rewrite Forall_forall in Hc. by destruct (Hc c Hc') as [_ ?].
    + apply NoDup_singleton.
Qed.

Lemma resolve_round_unfold callbacks message st :
  resolve_round callbacks message st =
  for_tool_calls (possible_functions_of (TOOLS_of st)) (tool_calls_of message)
    (set_messages (messages st ++ [message]) (log_round callbacks st)).
Proof. reflexivity. Qed.

Lemma resolve_round_frame callbacks message st out st' :
  resolve_round callbacks message st = (out, st') ->
  out <> OutOfFuel /\ heap st' = heap st /\ completions st' = completions st /\
  rounds st' = rounds st ++ [callbacks] /\
  sandbox_runs st' = sandbox_runs st /\ stdout st' = stdout st.
Proof.
  rewrite resolve_round_unfold.
  intros [Ho (Hh & _ & Hc & Hr & Hs & Hp)]%for_tool_calls_frame.
  by rewrite Hh, Hc, Hr, Hs, Hp.
Qed.

(** One turn of the loop, spelled out. *)
Lemma while_loop_unfold fuel model max_callbacks response callbacks st :
  while_loop fuel model max_callbacks response callbacks st =
  if has_tool_calls response && (callbacks <=? max_callbacks)%Z then
    match fuel with
    | O => (OutOfFuel, st)
    | S fuel' =>
        match resolve_round callbacks response st with
        | (Ok _, st1) =>
            match litellm_completion model st1 with
            | (Ok r, st2) => while_loop fuel' model max_callbacks r (callbacks + 1) st2
            | (Raise e, st2) => (Raise e, st2)
            | (OutOfFuel, st2) => (OutOfFuel, st2)
            end
        | (Raise e, st1) => (Raise e, st1)
        | (OutOfFuel, st1) => (OutOfFuel, st1)
        end
    end
  else (Ok response, st).
Proof.
  destruct fuel; simpl; by destruct (has_tool_calls response && _).
Qed.

Lemma guard_true response callbacks max_callbacks :
  has_tool_calls response && (callbacks <=? max_callbacks)%Z = true <->
  has_tool_calls response = true /\ callbacks <= max_callbacks.
Proof. by rewrite andb_true_iff, Z.leb_le. Qed.

Lemma counter_values_S (c : Z) n :
  Z.add c <$> counter_values (S n) = c :: (Z.add (c + 1) <$> counter_values n).
Proof.
  unfold counter_values. cbn [seq fmap list_fmap]. f_equal; [lia|].
  rewrite <- fmap_S_seq, <- !list_fmap_compose.
  apply list_fmap_ext. intros _ k _. simpl. lia.
Qed.

(** The rounds a loop started at [callbacks] enters are numbered
    [callbacks], [callbacks + 1], ... and none is numbered above the cap. *)
Lemma while_loop_rounds model max_callbacks fuel :
  forall response callbacks st out st',
  while_loop fuel model max_callbacks response callbacks st = (out, st') ->
  exists n,
    rounds st' = rounds st ++ (Z.add callbacks <$> counter_values n) /\
    (n = 0%nat \/ callbacks + Z.of_nat n - 1 <= max_callbacks) /\
    (fuel <> 0%nat -> has_tool_calls response = true ->
     callbacks <= max_callbacks -> n <> 0%nat).
Proof.
  induction fuel as [|fuel IH]; intros response callbacks st out st';
    rewrite while_loop_unfold;
    destruct (has_tool_calls response && _) eqn:Hg.
  - intros [= <- <-]. exists 0%nat. rewrite app_nil_r. by auto.
  - intros [= <- <-]. exists 0%nat. rewrite app_nil_r.
    split; [done|]. split; [by left|]. intros _ ? ?.
    assert (has_tool_calls response && (callbacks <=? max_callbacks)%Z = true)
      by by apply guard_true. congruence.
  - apply guard_true in Hg as [Hg1 Hg2].
    destruct (resolve_round _ _ _) as [o st1] eqn:H1.
    apply resolve_round_frame in H1 as (Ho & _ & _ & Hr1 & _).
    assert (Z.add callbacks <$> counter_values 1 = [callbacks]) as Hone.
    { by rewrite counter_values_S. }
    destruct o as [[]|e|]; [|intros [= <- <-]|done].
    + destruct (litellm_completion_spec model st1)
        as (r & st2 & -> & _ & Hr2 & _).
      intros (n & Hn & Hb & _)%IH. exists (S n).
      rewrite counter_values_S, Hn, Hr2, Hr1, <- app_assoc. simpl.
      split; [done|]. split; [right; lia|done].
    + exists 1%nat. rewrite Hone. split; [done|]. split; [right; lia|done].
  - intros [= <- <-]. exists 0%nat. rewrite app_nil_r.
    split; [done|]. split; [by left|]. intros _ ? ?.
    assert (has_tool_calls response && (callbacks <=? max_callbacks)%Z = true)
      by by apply guard_true. congruence.
Qed.

(** Fuel for the rounds the cap allows is enough: the loop ends by itself. *)
Lemma while_loop_total model max_callbacks fuel :
  forall response callbacks st,
  (Z.to_nat (max_callbacks + 1 - callbacks) <= fuel)%nat ->
  fst (while_loop fuel model max_callbacks response callbacks st) <> OutOfFuel.
Proof.
  induction fuel as [|fuel IH]; intros response callbacks st Hf;
    rewrite while_loop_unfold;
    destruct (has_tool_calls response && _) eqn:Hg; try done.
  - apply guard_true in Hg as [_ Hg]. lia.
  - apply guard_true in Hg as [_ Hg].
    destruct (resolve_round _ _ _) as [o st1] eqn:H1.
    apply resolve_round_frame in H1 as (Ho & _).
    destruct o as [[]|e|]; [|done..].
    destruct (litellm_completion_spec model st1) as (r & st2 & -> & _).
    apply IH. lia.
Qed.

(** A loop that ended by itself ends the same way on more fuel. *)
Lemma while_loop_more_fuel model max_callbacks fuel :
  forall fuel' response callbacks st,
  (fuel <= fuel')%nat ->
  fst (while_loop fuel model max_callbacks response callbacks st) <> OutOfFuel ->
  while_loop fuel' model max_callbacks response callbacks st =
  while_loop fuel model max_callbacks response callbacks st.
Proof.
  induction fuel as [|fuel IH]; intros fuel' response callbacks st Hle Hne.
  - rewrite (while_loop_unfold O) in Hne |- *. rewrite (while_loop_unfold fuel').
    by destruct (has_tool_calls response && _).
  - destruct fuel' as [|fuel']; [lia|].
    rewrite (while_loop_unfold (S fuel)) in Hne |- *.
    rewrite (while_loop_unfold (S fuel')).
    destruct (has_tool_calls response && _); [|done].
    destruct (resolve_round _ _ _) as [[[]|e|] st1]; try done.
    destruct (litellm_completion model st1) as [[r|e|] st2]; try done.
    apply IH; [lia|done].
Qed.

End Loop.

(** ** The responses a run receives *)

Section Responses.
Context {E : Env}.

Lemma has_tool_calls_of message tcs :
  tool_calls message = Some tcs ->
  tool_calls_of message = tcs /\
  (tcs <> [] -> has_tool_calls message = true).
Proof.
  unfold tool_calls_of, has_tool_calls. intros ->. split; [done|].
  by destruct tcs.
Qed.

(** A loop that starts with [TOOLS] intact keeps it intact, writes nothing
    and runs no container.  The responses it receives extend the log; if
    it returns, it returns the last of them, which carries no tool calls
    unless the cap stopped the loop after a full run of tool-call
    responses; if it raises, some response held a call that is not
    accepted. *)
Lemma while_loop_spec model max_callbacks fuel :
  forall response callbacks st out st',
  tools_intact st ->
  while_loop fuel model max_callbacks response callbacks st = (out, st') ->
  tools_intact st' /\
  sandbox_runs st' = sandbox_runs st /\ stdout st' = stdout st /\
  exists rs,
    responses st' = responses st ++ rs /\
    match out with
    | Ok r =>
        last (response :: rs) = Some r /\
        (has_tool_calls r = false \/
         (max_callbacks < callbacks + Z.of_nat (length rs) /\
          Forall (fun x => has_tool_calls x = true) (response :: rs)))
    | Raise e =>
        Exists (fun x => ~ Forall accepted (tool_calls_of x)) (response :: rs)
    | OutOfFuel => True
    end.
Proof.
  induction fuel as [|fuel IH]; intros response callbacks st out st' Hi;
    rewrite while_loop_unfold;
    destruct (has_tool_calls response && _) eqn:Hg.
  - intros [= <- <-]. do 3 (split; [done|]). exists []. by rewrite app_nil_r.
  - intros [= <- <-]. do 3 (split; [done|]). exists []. rewrite app_nil_r.
    split; [done|]. split; [done|].
    destruct (has_tool_calls response) eqn:Hh; [right|by left].
    simpl in Hg. apply Z.leb_gt in Hg. split; [simpl; lia|by constructor].
  - apply guard_true in Hg as [Hg1 Hg2].
    rewrite resolve_round_unfold, (tools_intact_TOOLS_of _ Hi).
    destruct (for_tool_calls _ _ _) as [o st1] eqn:H1.
    pose proof (for_tool_calls_frame _ _ _ _ _ H1)
      as (Ho & Hh1 & _ & Hc1 & _ & Hs1 & Hp1).
    simpl in Hh1, Hc1, Hs1, Hp1.
    assert (tools_intact st1) as Hi1 by by apply (tools_intact_same st).
    assert (responses st1 = responses st) as Hr1
      by (unfold responses; by rewrite Hc1).
    destruct o as [[]|e|]; [|intros [= <- <-]|done].
    + destruct (litellm_completion_spec model st1)
        as (r & st2 & -> & _ & _ & _ & _ & Hs2 & Hp2 & (c & Hc2 & Hcr & _) & Hi2).
      intros (Hi' & Hs' & Hp' & rs & Hrs & Hout)%IH; [|by apply Hi2].
      split; [done|]. split; [congruence|]. split; [congruence|].
      exists (r :: rs). split.
      { rewrite Hrs. unfold responses. rewrite Hc2, fmap_app, Hc1. simpl.
        by rewrite Hcr, <- app_assoc. }
      destruct out as [r'|e|]; [|by apply Exists_cons_tl|done].
      destruct Hout as [Hlast Hexit]. split; [done|].
      destruct Hexit as [?|[Hcap Hall]]; [by left|right].
      split; [simpl length; lia|by constructor].
    + split; [done|]. split; [done|]. split; [done|].
      exists []. rewrite app_nil_r. split; [done|].
      apply Exists_cons_hd. by eapply for_tool_calls_raise.
  - intros [= <- <-]. do 3 (split; [done|]). exists []. rewrite app_nil_r.
    split; [done|]. split; [done|].
    destruct (has_tool_calls response) eqn:Hh; [right|by left].
    simpl in Hg. apply Z.leb_gt in Hg. split; [simpl; lia|by constructor].
Qed.

(** Lines 76-104 when the model lacks tool support, and when it has it. *)
Lemma tool_call_loop_unsupported fuel prompt model max_callbacks st :
  supports_function_calling model = false ->
  tool_call_loop fuel prompt model max_callbacks st =
  (Raise unsupported_model, set_messages (seed_messages prompt) st).
Proof. intros H. unfold tool_call_loop, bind, modify. by rewrite H. Qed.

Lemma tool_call_loop_supported fuel prompt model max_callbacks st :
  supports_function_calling model = true ->
  exists r0 st1,
    litellm_completion model (set_messages (seed_messages prompt) st) = (Ok r0, st1) /\
    tool_call_loop fuel prompt model max_callbacks st =
    while_loop fuel model max_callbacks r0 0 st1.
Proof.
  intros H.
  destruct (litellm_completion_spec model (set_messages (seed_messages prompt) st))
    as (r0 & st1 & Hc & _).
  exists r0, st1. split; [done|].
  unfold tool_call_loop, bind, modify. cbn beta iota.
  rewrite H. cbn [negb]. by rewrite Hc.
Qed.

(** The first phase of a run from the initial state. *)
Lemma tool_call_loop_spec fuel prompt model max_callbacks p out st' :
  supports_function_calling model = true ->
  tool_call_loop fuel prompt model max_callbacks (init_state p) = (out, st') ->
  tools_intact st' /\ sandbox_runs st' = [] /\ stdout st' = [] /\
  exists r0 rs,
    responses st' = r0 :: rs /\
    match out with
    | Ok r =>
        last (r0 :: rs) = Some r /\
        (has_tool_calls r = false \/
         (max_callbacks < Z.of_nat (length rs) /\
          Forall (fun x => has_tool_calls x = true) (r0 :: rs)))
    | Raise e =>
        Exists (fun x => ~ Forall accepted (tool_calls_of x)) (r0 :: rs)
    | OutOfFuel => True
    end.
Proof.
  intros Hs. destruct (tool_call_loop_supported fuel prompt model max_callbacks
    (init_state p) Hs) as (r0 & st1 & Hc & ->).
  destruct (litellm_completion_spec model
    (set_messages (seed_messages prompt) (init_state p)))
    as (r0' & st1' & Hc' & _ & _ & _ & _ & Hs1 & Hp1 & (c & Hc1 & Hcr & _) & Hi1).
  rewrite Hc in Hc'. injection Hc' as <- <-.
  intros (Hi & Hs' & Hp' & rs & Hrs & Hout)%while_loop_spec;
    [|apply Hi1, (tools_intact_same (init_state p)); [done..|apply tools_intact_init]].
  split; [done|]. split; [by rewrite Hs', Hs1|]. split; [by rewrite Hp', Hp1|].
  exists r0, rs. split.
  { rewrite Hrs. unfold responses. rewrite Hc1. simpl. by rewrite Hcr. }
  by rewrite Z.add_0_l in Hout.
Qed.

Lemma reflection_spec model response st :
  exists r st',
    reflection model response st = (Ok r, st') /\
    messages st' =
      messages st ++ [user_message (reflect_prompt (content response))] /\
    rounds st' = rounds st /\ invoked st' = invoked st /\
    names_drawn st' = names_drawn st /\
    sandbox_runs st' = sandbox_runs st /\ stdout st' = stdout st /\
    (exists c, completions st' = completions st ++ [c] /\
       call_response c = r /\ call_messages c = messages st' /\
       call_model c = model) /\
    (tools_intact st -> tools_intact st').
Proof.
  set (st0 := set_messages
    (messages st ++ [user_message (reflect_prompt (content response))]) st).
  destruct (litellm_completion_spec model st0)
    as (r & st' & Hc & Hm & Hr & Hv & Hn & Hs & Hp & (c & Hc1 & Hcr & Hcm & Hcl) & Hi).
  exists r, st'. split.
  { unfold reflection, bind, append, modify. fold st0. by rewrite Hc. }
  do 6 (split; [done|]). split.
  - exists c. by rewrite Hm.
  - intros H. apply Hi. by apply (tools_intact_same st).
Qed.

Lemma report_frame execute_code response st :
  exists st',
    report execute_code response st = (Ok tt, st') /\
    heap st' = heap st /\ completions st' = completions st /\
    messages st' = messages st /\ rounds st' = rounds st /\
    invoked st' = invoked st /\
    take 2 (stdout st' ) = take 2 (stdout st ++
      [">>> LLM Response:"; py_str (content response)]).
Proof.
  destruct (report_cases execute_code response st)
    as [[_ ->]|(text & code & _ & Ht & _ & ->)]; eexists; (split; [done|]); simpl.
  - do 5 (split; [done|]). by rewrite <- app_assoc.
  - do 5 (split; [done|]). rewrite Ht. simpl.
    rewrite <- !app_assoc. simpl.
    rewrite !(take_app (stdout st)).
    assert (2 - length (stdout st) <= 2)%nat as Hk by lia.
    destruct (2 - length (stdout st))%nat as [|[|[|k]]]; [done..|lia].
Qed.

End Responses.

(** ** The properties of the specification *)

Section Claims.
Context {E : Env}.
Import Str StrFacts.

Lemma counter_values_from_0 n : Z.add 0 <$> counter_values n = counter_values n.
Proof.
  rewrite <- (list_fmap_id (counter_values n)) at 2.
  apply list_fmap_ext. intros _ k _. simpl. lia.
Qed.

Lemma counter_values_bounded n (m : Z) :
  Z.of_nat n <= m + 1 -> Forall (fun c => 0 <= c <= m) (counter_values n).
Proof.
  intros Hn. unfold counter_values. apply Forall_fmap, Forall_seq.
  intros k Hk. simpl. lia.
Qed.

(** C1.  With a non-negative cap and fuel for [max_callbacks + 1] rounds the
    loop ends by itself (and ends the same way on any larger fuel).  The
    rounds it enters are entered with [callbacks] equal to 0, 1, ..., n - 1,
    each at most [max_callbacks], so at most [max_callbacks + 1] of them;
    with a cap of 0 and a first response that carries tool calls, exactly
    one round is entered. *)
Theorem loop_rounds_bounded fuel model max_callbacks response st :
  0 <= max_callbacks ->
  (Z.to_nat (max_callbacks + 1) <= fuel)%nat ->
  exists out st' n,
    while_loop fuel model max_callbacks response 0 st = (out, st') /\
    out <> OutOfFuel /\
    (forall fuel', (fuel <= fuel')%nat ->
       while_loop fuel' model max_callbacks response 0 st = (out, st')) /\
    rounds st' = rounds st ++ counter_values n /\
    Z.of_nat n <= max_callbacks + 1 /\
    Forall (fun callbacks => 0 <= callbacks <= max_callbacks) (counter_values n) /\
    (max_callbacks = 0 -> has_tool_calls response = true -> n = 1%nat).
Proof.
  intros Hm Hf.
  destruct (while_loop fuel model max_callbacks response 0 st) as [out st'] eqn:Hw.
  pose proof (while_loop_total model max_callbacks fuel response 0 st) as Ht.
  rewrite Hw in Ht. simpl in Ht.
  assert (out <> OutOfFuel) as Hout by (apply Ht; by rewrite Z.sub_0_r).
  destruct (while_loop_rounds _ _ _ _ _ _ _ _ Hw) as (n & Hr & Hb & Hn).
  rewrite counter_values_from_0 in Hr.
  assert (Z.of_nat n <= max_callbacks + 1) as Hle by lia.
  exists out, st', n. split; [done|]. split; [done|]. split.
  { intros fuel' Hle'. rewrite <- Hw. apply while_loop_more_fuel; [done|].
    by rewrite Hw. }
  split; [done|]. split; [done|]. split; [by apply counter_values_bounded|].
  intros -> Hh. assert (n <> 0%nat); [|lia].
  apply Hn; [|done|done]. intros ->. simpl in Hf. lia.
Qed.

(** C3.  When the capability query answers no, the run ends in the
    unsupported-model error; the provider was never called, nothing was
    printed and no container was run. *)
Theorem unsupported_model_makes_no_call
    fuel prompt model max_callbacks reflect execute_code p :
  supports_function_calling model = false ->
  exists st',
    run_agent fuel prompt model max_callbacks reflect execute_code (init_state p) =
      (Raise unsupported_model, st') /\
    completions st' = [] /\ provider_state st' = p /\
    heap st' = heap (init_state p) /\
    stdout st' = [] /\ sandbox_runs st' = [].
Proof.
  intros H. eexists. split.
  - unfold run_agent, bind. by rewrite tool_call_loop_unsupported.
  - done.
Qed.

(** C5, amended.  When a closing delimiter occurs after the first opening
    delimiter of the text, the extracted code is the part of the text
    strictly between that opening delimiter and the first closing
    delimiter after it, whatever delimiters follow, and the final phase
    runs the container once, on that code.  On the example text of the
    specification the extracted code is the first block. *)
Theorem extracted_code_is_first_block text i response st :
  first_occurrence OPEN text i ->
  (exists q, occurs_at CLOSE (drop (i + String.length OPEN) text) q) ->
  content response = Some text ->
  exists code,
    extract_code text = Some code /\
    between_delimiters text code /\
    sandbox_runs (snd (report true response st)) =
      sandbox_runs st ++ [sandbox_request_for code] /\
    extract_code Demo.two_blocks = Some "print(1)".
Proof.
  intros Ho Hq Ht.
  apply contains_true in Hq. unfold contains in Hq.
  destruct (find CLOSE _) as [j|] eqn:Hj; [clear Hq|done].
  apply find_Some in Hj.
  pose proof (extract_code_between _ _ _ Ho Hj) as Hx.
  eexists. split; [exact Hx|]. split; [by exists i, j|]. split; [|reflexivity].
  destruct (report_cases true response st)
    as [[Hs _]|(text' & code' & _ & Ht' & Hx' & ->)].
  - exfalso. rewrite Ht in Hs. simpl in Hs.
    apply andb_false_iff in Hs as [Hs|Hs];
      pose proof (proj1 (contains_false _ _) Hs) as Hn.
    + apply (Hn i), Ho.
    + apply (Hn (i + String.length OPEN + j)%nat).
      apply occurs_at_drop; [|apply Hj].
      destruct Ho as [[Hlen Hs'] _]. apply startswith_decompose in Hs'.
      apply (f_equal String.length) in Hs'.
      rewrite str_length_app, !str_length_drop in Hs'.
      change (String.length OPEN) with 16%nat in *. lia.
  - rewrite Ht in Ht'. injection Ht' as <-. rewrite Hx in Hx'. by injection Hx' as <-.
Qed.

(** C10.  If every closing delimiter of the text starts before its first
    opening delimiter, the run still triggers with [execute_code] set, and
    the code handed to the container is all of the text after that opening
    delimiter. *)
Theorem unclosed_block_runs_remainder text i response st :
  first_occurrence OPEN text i ->
  (exists q, occurs_at CLOSE text q) ->
  (forall q, occurs_at CLOSE text q -> (q < i)%nat) ->
  content response = Some text ->
  should_execute true (content response) = true /\
  extract_code text = Some (drop (i + String.length OPEN) text) /\
  sandbox_runs (snd (report true response st)) =
    sandbox_runs st ++
    [sandbox_request_for (drop (i + String.length OPEN) text)].
Proof.
  intros Ho Hq Hall Ht.
  assert (should_execute true (content response) = true) as Hs.
  { apply should_execute_true. split; [done|]. exists text. split; [done|].
    split; apply contains_true; [|done]. exists i. apply Ho. }
  pose proof (extract_code_unclosed _ _ Ho Hall) as Hx.
  split; [done|]. split; [done|].
  destruct (report_cases true response st)
    as [[Hs' _]|(text' & code' & _ & Ht' & Hx' & ->)]; [congruence|].
  rewrite Ht in Ht'. injection Ht' as <-. rewrite Hx in Hx'. by injection Hx' as <-.
Qed.

End Claims.

Section RunClaims.
Context {E : Env}.

Lemma last_filter {A} (P : A -> Prop) `{forall x, Decision (P x)} (l : list A) x :
  last l = Some x -> P x -> last (filter P l) = Some x.
Proof.
  intros (l' & ->)%last_Some Hx.
  rewrite filter_app, filter_cons_True, filter_nil by done. apply last_snoc.
Qed.

Lemma filter_all {A} (P : A -> Prop) `{forall x, Decision (P x)} (l : list A) :
  Forall P l -> filter P l = l.
Proof.
  induction 1 as [|x l Hx _ IH]; [done|].
  by rewrite filter_cons_True, IH.
Qed.

Lemma printed_answer_of st text :
  take 2 (stdout st) = [">>> LLM Response:"; text] ->
  printed_answer st = Some text.
Proof.
  intros Ht. unfold printed_answer.
  rewrite <- (lookup_take_lt _ 2) by lia. by rewrite Ht.
Qed.

(** C2, amended.  In a run with a model that supports tools, if every tool
    call of every response received is accepted (a known name, arguments
    that parse to the keywords the tool takes), at most [max_callbacks + 1]
    of the responses carry tool calls and, with [reflect] set, the reply to
    the reflection prompt carries none, then the run ends normally and the
    text printed is the content of the last response that carried no tool
    calls, which is the last response received. *)
Theorem final_text_is_last_plain_response
    fuel prompt model max_callbacks reflect execute_code p out st' :
  supports_function_calling model = true ->
  (Z.to_nat (max_callbacks + 1) <= fuel)%nat ->
  run_agent fuel prompt model max_callbacks reflect execute_code (init_state p)
    = (out, st') ->
  Forall (fun r => Forall accepted (tool_calls_of r)) (responses st') ->
  Z.of_nat (length (tool_bearing (responses st'))) <= max_callbacks + 1 ->
  (reflect = true ->
   exists reply, last (responses st') = Some reply /\ has_tool_calls reply = false) ->
  out = Ok tt /\
  exists r,
    last (plain (responses st')) = Some r /\
    last (responses st') = Some r /\
    printed_answer st' = Some (py_str (content r)).
Proof.
  intros Hs Hf Hrun Hacc Hcount Hrefl.
  unfold run_agent, bind in Hrun.
  destruct (tool_call_loop _ _ _ _ _) as [out1 st1] eqn:H1.
  pose proof H1 as H1'.
  apply tool_call_loop_spec in H1' as (Hi & _ & Hp1 & r0 & rs & Hrs & Hout); [|done].
  assert (out1 <> OutOfFuel) as Hne.
  { destruct (tool_call_loop_supported fuel prompt model max_callbacks
      (init_state p) Hs) as (r0' & st0 & _ & Hw). rewrite Hw in H1.
    pose proof (while_loop_total model max_callbacks fuel r0' 0 st0) as Ht.
    rewrite H1 in Ht. apply Ht. by rewrite Z.sub_0_r. }
  destruct out1 as [r|e|]; [|injection Hrun as <- <-|done].
  2:{ exfalso. rewrite Hrs in Hacc. apply Exists_exists in Hout as (x & Hx & Hbad).
      rewrite Forall_forall in Hacc. by apply Hbad, Hacc. }
  destruct Hout as [Hlast Hexit].
  destruct reflect.
  - destruct (reflection_spec model r st1)
      as (reply & st2 & Hr & _ & _ & _ & _ & _ & Hp2 & (c & Hc & Hcr & _) & _).
    rewrite Hr in Hrun.
    destruct (report_frame execute_code reply st2)
      as (st3 & Hrep & _ & Hc3 & _ & _ & _ & Hp3).
    rewrite Hrep in Hrun. injection Hrun as <- <-. split; [done|].
    assert (responses st3 = responses st1 ++ [reply]) as Hresp.
    { unfold responses. by rewrite Hc3, Hc, fmap_app, <- Hcr. }
    destruct (Hrefl eq_refl) as (reply' & Hl' & Hplain).
    rewrite Hresp, last_snoc in Hl'. injection Hl' as <-.
    exists reply. rewrite Hresp. split; [|split].
    + apply last_filter; [apply last_snoc|done].
    + apply last_snoc.
    + apply printed_answer_of. by rewrite Hp3, Hp2, Hp1.
  - destruct (report_frame execute_code r st1)
      as (st3 & Hrep & _ & Hc3 & _ & _ & _ & Hp3).
    unfold ret in Hrun. cbn beta iota in Hrun. rewrite Hrep in Hrun. injection Hrun as <- <-. split; [done|].
    assert (responses st3 = r0 :: rs) as Hresp.
    { unfold responses. rewrite Hc3. exact Hrs. }
    rewrite Hresp in Hcount |- *.
    destruct Hexit as [Hplain|[Hcap Hall]].
    + exists r. split; [by apply last_filter|]. split; [done|].
      apply printed_answer_of. by rewrite Hp3, Hp1.
    + exfalso. unfold tool_bearing in Hcount.
      rewrite filter_all in Hcount by done. simpl in Hcount. lia.
Qed.

(** C4, amended.  In a round the cap allows, with [TOOLS] as declared, if
    the calls before the first one that names an unknown function are all
    accepted, the loop raises the unrecognized-function error naming that
    function, and no provider call has been made since the round began. *)
Theorem unknown_tool_raises_after_resolved_calls
    fuel model max_callbacks message callbacks st pre bad post :
  TOOLS_of st = TOOLS ->
  callbacks <= max_callbacks ->
  tool_calls message = Some (pre ++ bad :: post) ->
  Forall accepted pre ->
  ~ known (fn_name (tc_function bad)) ->
  exists st',
    while_loop (S fuel) model max_callbacks message callbacks st =
      (Raise (unrecognized (fn_name (tc_function bad))), st') /\
    completions st' = completions st /\
    provider_state st' = provider_state st.
Proof.
  intros HT Hc Hm Hpre Hbad.
  destruct (has_tool_calls_of _ _ Hm) as [Htcs Hh].
  rewrite while_loop_unfold, (proj2 (guard_true _ _ _));
    [|split; [apply Hh; by destruct pre|done]].
  rewrite resolve_round_unfold, HT, Htcs, for_tool_calls_unknown by done.
  by eexists.
Qed.

Lemma for_tool_calls_unknown_fails possible_functions pre bad post st :
  fn_name (tc_function bad) ∉ possible_functions ->
  forall u st',
    for_tool_calls possible_functions (pre ++ bad :: post) st <> (Ok u, st').
Proof.
  intros Hbad; revert st; induction pre as [|tc pre IH]; intros st u st'; simpl.
  - unfold bind, resolve_tool_call.
    by rewrite bool_decide_eq_false_2 by done.
  - unfold bind. destruct (resolve_tool_call _ _ _) as [[[]|e|] st1]; [|done..].
    apply IH.
Qed.

(** C9.  In a round whose first unknown function name is that of [bad], if
    the loop ends in the unrecognized-function error then the error names
    [bad], and the state it leaves has the assistant message appended,
    followed by one tool-result message (with the call's id and name) for
    each call before [bad], in order, the tool having been invoked once for
    each of them; no provider call was made. *)
Theorem unknown_tool_failure_keeps_partial_effects
    fuel model max_callbacks message callbacks st pre bad post f st' :
  TOOLS_of st = TOOLS ->
  callbacks <= max_callbacks ->
  tool_calls message = Some (pre ++ bad :: post) ->
  Forall (fun tc => known (fn_name (tc_function tc))) pre ->
  ~ known (fn_name (tc_function bad)) ->
  while_loop (S fuel) model max_callbacks message callbacks st =
    (Raise (unrecognized f), st') ->
  f = fn_name (tc_function bad) /\
  messages st' =
    messages st ++ [message] ++ tool_results (names_drawn st) pre /\
  invoked st' = invoked st ++ ((fun tc => fn_name (tc_function tc)) <$> pre) /\
  names_drawn st' = (length pre + names_drawn st)%nat /\
  completions st' = completions st.
Proof.
  intros HT Hc Hm Hpre Hbad.
  destruct (has_tool_calls_of _ _ Hm) as [Htcs Hh].
  rewrite while_loop_unfold, (proj2 (guard_true _ _ _));
    [|split; [apply Hh; by destruct pre|done]].
  rewrite resolve_round_unfold, HT, Htcs.
  destruct (for_tool_calls _ _ _) as [[[]|e|] st1] eqn:H1.
  - by apply for_tool_calls_unknown_fails in H1.
  - intros [= -> <-].
    apply for_tool_calls_unknown_inv in H1 as (_ & -> & ->); [|done..].
    simpl. by rewrite <- app_assoc.
  - done.
Qed.

(** C7.  After a first phase that returned [response], a run with [reflect]
    set appends one user message, the critique prompt with the content of
    [response] between its quotes, makes one provider call on the history
    so extended, enters no round and invokes no tool, and prints the
    content of the reply; without [reflect] no further call is made. *)
Theorem reflection_makes_one_raw_call
    fuel prompt model max_callbacks execute_code st response st1 :
  tool_call_loop fuel prompt model max_callbacks st = (Ok response, st1) ->
  exists reply c st3 st3',
    run_agent fuel prompt model max_callbacks true execute_code st = (Ok tt, st3) /\
    messages st3 =
      messages st1 ++ [user_message (reflect_prompt (content response))] /\
    (forall text, content response = Some text ->
       reflect_prompt (content response) =
       "Please reflect on your last output, which was '" +:+ text +:+
       "'. If you can improve it, please do so and provide a new response.") /\
    completions st3 = completions st1 ++ [c] /\
    call_messages c = messages st3 /\ call_response c = reply /\
    rounds st3 = rounds st1 /\ invoked st3 = invoked st1 /\
    take 2 (stdout st3) =
      take 2 (stdout st1 ++ [">>> LLM Response:"; py_str (content reply)]) /\
    run_agent fuel prompt model max_callbacks false execute_code st = (Ok tt, st3') /\
    completions st3' = completions st1.
Proof.
  intros H1.
  destruct (reflection_spec model response st1)
    as (reply & st2 & Hr & Hm & Hro & Hin & _ & _ & Hp2 & (c & Hc & Hcr & Hcm & _) & _).
  destruct (report_frame execute_code reply st2)
    as (st3 & Hrep & _ & Hc3 & Hm3 & Hr3 & Hi3 & Hp3).
  destruct (report_frame execute_code response st1)
    as (st3' & Hrep' & _ & Hc3' & _).
  exists reply, c, st3, st3'. split.
  { unfold run_agent, bind. by rewrite H1, Hr, Hrep. }
  split; [by rewrite Hm3|]. split; [by intros text ->|].
  split; [by rewrite Hc3|]. split; [by rewrite Hm3|]. split; [done|].
  split; [by rewrite Hr3|]. split; [by rewrite Hi3|].
  split; [by rewrite Hp3, Hp2|]. split; [|done].
  unfold run_agent, bind. by rewrite H1.
Qed.

Lemma app_singleton_ne {A} (l : list A) x : l ++ [x] <> l.
Proof.
  intros H. apply (f_equal length) in H. rewrite length_app in H. simpl in H. lia.
Qed.

(** C6.  The final phase runs the container exactly when [execute_code] is
    set, the answer text is present and it contains both delimiters; it
    runs it at most once, and never when [execute_code] is off.  For a whole
    run from the initial state: a container was run exactly when the run
    ended normally, [execute_code] was set, and the content of the last
    response received is present and contains both delimiters. *)
Theorem sandbox_run_iff
    execute_code response st fuel prompt model max_callbacks reflect p :
  (sandbox_runs (snd (report execute_code response st)) <> sandbox_runs st <->
   execute_code = true /\
   exists text, content response = Some text /\
     Str.contains OPEN text = true /\ Str.contains CLOSE text = true) /\
  (length (sandbox_runs (snd (report execute_code response st)))
     <= S (length (sandbox_runs st)))%nat /\
  sandbox_runs (snd (report false response st)) = sandbox_runs st /\
  (sandbox_runs (snd (run_agent fuel prompt model max_callbacks reflect
                        execute_code (init_state p))) <> [] <->
   fst (run_agent fuel prompt model max_callbacks reflect
          execute_code (init_state p)) = Ok tt /\
   execute_code = true /\
   exists r text,
     last (responses (snd (run_agent fuel prompt model max_callbacks reflect
                             execute_code (init_state p)))) = Some r /\
     content r = Some text /\
     Str.contains OPEN text = true /\ Str.contains CLOSE text = true).
Proof.
  split; [|split; [|split]].
  - rewrite <- should_execute_true.
    destruct (report_cases execute_code response st)
      as [[Hx ->]|(text & code & Hx & _ & _ & ->)]; simpl; rewrite Hx.
    + split; [done|discriminate].
    + split; [done|]. intros _. apply app_singleton_ne.
  - destruct (report_cases execute_code response st)
      as [[Hx ->]|(text & code & Hx & _ & _ & ->)]; simpl; [lia|].
    rewrite length_app. simpl. lia.
  - by destruct (report_cases false response st)
      as [[Hx ->]|(text & code & Hx & _)].
  - unfold run_agent, bind.
    destruct (tool_call_loop _ _ _ _ _) as [out1 st1] eqn:H1.
    destruct (supports_function_calling model) eqn:Hs.
    2:{ rewrite tool_call_loop_unsupported in H1 by done.
        injection H1 as <- <-. simpl. split; [done|]. by intros [? _]. }
    apply tool_call_loop_spec in H1 as (_ & Hs1 & _ & r0 & rs & Hrs & Hout); [|done].
    destruct out1 as [r|e|]; simpl;
      [|rewrite Hs1; split; [done|by intros [? _]]..].
    destruct Hout as [Hlast _].
    assert (exists r' st2,
      (if reflect then reflection model r else ret r) st1 = (Ok r', st2) /\
      sandbox_runs st2 = [] /\ last (responses st2) = Some r')
      as (r' & st2 & -> & Hs2 & Hl2).
    { destruct reflect.
      - destruct (reflection_spec model r st1)
          as (r' & st2 & Hr & _ & _ & _ & _ & Hs2 & _ & (c & Hc & Hcr & _) & _).
        exists r', st2. split; [done|]. split; [congruence|].
        unfold responses. rewrite Hc, fmap_app. simpl. by rewrite last_snoc, Hcr.
      - exists r, st1. split; [done|]. split; [done|]. by rewrite Hrs. }
    destruct (report_cases execute_code r' st2)
      as [[Hx ->]|(text & code & Hx & Ht & _ & ->)]; simpl; rewrite Hs2.
    + split; [done|]. intros (_ & Hec & r'' & text & Hl & Hc & Ho & Hcl).
      assert (r'' = r') as -> by (unfold responses in Hl, Hl2; simpl in Hl; congruence).
      assert (should_execute execute_code (content r') = true); [|congruence].
      apply should_execute_true. eauto.
    + split; [|by intros _; apply (app_singleton_ne [])].
      intros _. apply should_execute_true in Hx as (Hec & text' & Ht' & Ho & Hcl).
      split; [done|]. split; [done|]. exists r', text'. split; [|done].
      unfold responses in Hl2 |- *. by simpl.
Qed.

(** C8.  After any run, against any provider, the object bound to [TOOLS]
    holds the declared descriptors; every provider call was handed an
    object at an address of its own, different from that of [TOOLS] and
    from those of the other calls, holding the declared descriptors, and
    [TOOLS] held them when the call returned. *)
Theorem TOOLS_never_mutated
    fuel prompt model max_callbacks reflect execute_code p :
  TOOLS_of (snd (run_agent fuel prompt model max_callbacks reflect
                   execute_code (init_state p))) = TOOLS /\
  Forall copy_discipline
    (completions (snd (run_agent fuel prompt model max_callbacks reflect
                         execute_code (init_state p)))) /\
  NoDup (call_tools_ref <$>
    completions (snd (run_agent fuel prompt model max_callbacks reflect
                        execute_code (init_state p)))).
Proof.
  assert (tools_intact (snd (run_agent fuel prompt model max_callbacks reflect
                               execute_code (init_state p)))) as Hi.
  { unfold run_agent, bind.
    destruct (tool_call_loop _ _ _ _ _) as [out1 st1] eqn:H1.
    assert (tools_intact st1) as Hi1.
    { destruct (supports_function_calling model) eqn:Hs.
      - by apply tool_call_loop_spec in H1 as [? _].
      - rewrite tool_call_loop_unsupported in H1 by done.
        injection H1 as _ <-.
        apply (tools_intact_same (init_state p)); [done..|apply tools_intact_init]. }
    destruct out1 as [r|e|]; [|done..].
    assert (exists r' st2,
      (if reflect then reflection model r else ret r) st1 = (Ok r', st2) /\
      tools_intact st2) as (r' & st2 & -> & Hi2).
    { destruct reflect.
      - destruct (reflection_spec model r st1) as (r' & st2 & Hr & Hrest).
        exists r', st2. split; [done|]. by apply Hrest.
      - by exists r, st1. }
    destruct (report_frame execute_code r' st2) as (st3 & -> & Hh & Hc & _).
    by apply (tools_intact_same st2). }
  split; [by apply tools_intact_TOOLS_of|].
  destruct Hi as (_ & Hc & Hn). split; [|done].
  eapply Forall_impl; [exact Hc|]. by intros c [? _].
Qed.

End RunClaims.

(** ** The program on concrete inputs *)

Section Concrete.
Import Demo.

(** The end-to-end example of the specification. *)
Example spec_example_end_to_end :
  let result := run script_name "What is your name?" gemini 5 false true in
  fst result = Ok tt /\
  stdout (snd result) = [">>> LLM Response:"; "My name is Jordan Lee."] /\
  sandbox_runs (snd result) = [] /\
  invoked (snd result) = ["make_random_name"] /\
  messages (snd result) =
    seed_messages "What is your name?" ++
    [ assistant None [call_of "call_1" "make_random_name" "{}"];
      tool_message "call_1" "make_random_name" "Jordan Lee" ].
Proof. vm_compute. repeat split. Qed.

(** The scripted provider empties the lists it is handed: the copies end
    up empty, [TOOLS] does not. *)
Example provider_mutation_hits_the_copies :
  let st' := snd (run script_name "What is your name?" gemini 5 false true) in
  call_tools_ref <$> completions st' = [1%nat; 2%nat] /\
  heap st' !! 1%nat = Some [] /\ heap st' !! 2%nat = Some [] /\
  heap st' !! tools_loc = Some TOOLS.
Proof. vm_compute. repeat split. Qed.

Lemma known_make_random_name : known "make_random_name".
Proof. by apply known_iff. Qed.

Lemma unknown_launch : ~ known "launch".
Proof. by intros ?%known_iff. Qed.

Lemma occurs_at_drop_inv sub s q k :
  Str.occurs_at sub s q -> (k <= q)%nat ->
  Str.occurs_at sub (Str.drop k s) (q - k).
Proof.
  intros [Hq Hs] Hk. split.
  - rewrite StrFacts.str_length_drop. lia.
  - rewrite StrFacts.str_drop_drop. by replace (k + (q - k))%nat with q by lia.
Qed.

(** Splits a [Forall] over the responses of a script and their calls. *)
Ltac split_calls :=
  repeat match goal with
  | |- Forall _ [] => apply Forall_nil_2
  | |- Forall _ (_ :: _) => apply Forall_cons
  | |- Forall _ _ => progress cbn [tool_calls_of assistant tool_calls]
  | |- _ /\ _ => split
  | |- _ => progress cbn beta
  end.

(** C2 as stated fails.  First input: with [reflect] set, a plain answer A
    is followed by a reply B to the reflection prompt that carries a tool
    call; all calls name the known tool with valid JSON arguments and one
    response carries tool calls, yet the text printed is B while the last
    response without tool calls has content A.  Second input: the known
    tool is called with the valid JSON document that holds a key x; the
    run ends in a TypeError. *)
Lemma final_text_claim_fails :
  (let result := run script_reflect_calls "hello" gemini 5 true true in
   Forall (fun r => Forall (fun tc => known (fn_name (tc_function tc)) /\
                                      @valid_json env tc) (tool_calls_of r))
          (responses (snd result)) /\
   Z.of_nat (length (tool_bearing (responses (snd result)))) <= 5 + 1 /\
   fst result = Ok tt /\
   printed_answer (snd result) = Some "B" /\
   content <$> last (plain (responses (snd result))) = Some (Some "A") /\
   ~ exists r, last (plain (responses (snd result))) = Some r /\
               printed_answer (snd result) = Some (py_str (content r))) /\
  (let result := run script_keyword "hello" gemini 5 false true in
   Forall (fun r => Forall (fun tc => known (fn_name (tc_function tc)) /\
                                      @valid_json env tc) (tool_calls_of r))
          (responses (snd result)) /\
   Z.of_nat (length (tool_bearing (responses (snd result)))) <= 5 + 1 /\
   fst result =
     Raise (TypeError "make_random_name() got an unexpected keyword argument 'x'")).
Proof.
  split.
  - cbv zeta.
    assert (responses (snd (run script_reflect_calls "hello" gemini 5 true true))
            = script_reflect_calls) as -> by (vm_compute; reflexivity).
    split.
    { unfold script_reflect_calls. split_calls;
        [apply known_make_random_name|by eexists]. }
    split; [vm_compute; discriminate|]. split; [vm_compute; reflexivity|].
    split; [vm_compute; reflexivity|]. split; [vm_compute; reflexivity|].
    intros (r & Hr & Hp).
    assert (last (plain script_reflect_calls) = Some (assistant (Some "A") []))
      as Hl by (vm_compute; reflexivity).
    rewrite Hl in Hr. injection Hr as <-. vm_compute in Hp. discriminate.
  - cbv zeta.
    assert (responses (snd (run script_keyword "hello" gemini 5 false true))
            = script_keyword) as -> by (vm_compute; reflexivity).
    split.
    { unfold script_keyword. split_calls;
        [apply known_make_random_name|by eexists]. }
    split; [vm_compute; discriminate|]. vm_compute; reflexivity.
Qed.

(** C4 as stated fails: a round whose second call names the unknown
    function launch, after a call of the known tool with malformed
    arguments, is entered and ends in the JSON error, not in the
    unrecognized-function error. *)
Lemma unknown_tool_masked_by_bad_arguments :
  let result := run script_masked "hello" gemini 5 false true in
  Exists (fun r => Exists (fun tc => ~ known (fn_name (tc_function tc)))
                     (tool_calls_of r)) script_masked /\
  responses (snd result) = script_masked /\
  rounds (snd result) = [0] /\
  fst result = Raise (JSONDecodeError "{") /\
  forall f, fst result <> Raise (unrecognized f).
Proof.
  cbv zeta. split.
  { apply Exists_cons_hd. cbn [tool_calls_of assistant tool_calls].
    apply Exists_cons_tl, Exists_cons_hd. apply unknown_launch. }
  split; [vm_compute; reflexivity|]. split; [vm_compute; reflexivity|].
  assert (fst (run script_masked "hello" gemini 5 false true)
          = Raise (JSONDecodeError "{")) as -> by (vm_compute; reflexivity).
  split; [done|]. intros f. unfold unrecognized. discriminate.
Qed.

(** C5 as stated fails: in a text whose only closing delimiter comes before
    the opening one a code block is extracted, and it is not the part
    between the first opening delimiter and a closing delimiter after it:
    there is none. *)
Lemma close_first_is_not_between :
  should_execute true (Some close_first) = true /\
  extract_code close_first = Some "print(2)" /\
  ~ between_delimiters close_first "print(2)".
Proof.
  split; [reflexivity|]. split; [reflexivity|].
  intros (i & j & Hi%StrFacts.find_Some & Hj%StrFacts.find_Some & _).
  vm_compute in Hi. injection Hi as <-. vm_compute in Hj. discriminate.
Qed.


(** *** Instances of the theorems *)

Lemma loop_rounds_bounded_witness :
  0 <= 1 /\ (Z.to_nat (1 + 1) <= 2)%nat /\
  exists out st' n,
    @while_loop env 2 gemini 1 always_calling 0
      (@init_state env [always_calling; always_calling]) = (out, st') /\
    out <> OutOfFuel /\
    (forall fuel', (2 <= fuel')%nat ->
       @while_loop env fuel' gemini 1 always_calling 0
         (@init_state env [always_calling; always_calling]) = (out, st')) /\
    rounds st' = rounds (@init_state env [always_calling; always_calling])
                 ++ counter_values n /\
    Z.of_nat n <= 1 + 1 /\
    Forall (fun callbacks => 0 <= callbacks <= 1) (counter_values n) /\
    (1 = 0 -> has_tool_calls always_calling = true -> n = 1%nat).
Proof.
  split; [lia|]. split; [simpl; lia|].
  apply (@loop_rounds_bounded env 2 gemini 1 always_calling); [lia|simpl; lia].
Defined.

Lemma final_text_is_last_plain_response_witness :
  let result := run script_name "What is your name?" gemini 5 false true in
  fst result = Ok tt /\
  exists r,
    last (plain (responses (snd result))) = Some r /\
    last (responses (snd result)) = Some r /\
    printed_answer (snd result) = Some (py_str (content r)).
Proof.
  cbv zeta.
  apply (@final_text_is_last_plain_response env 10 "What is your name?" gemini 5
           false true script_name).
  - reflexivity.
  - simpl; lia.
  - apply surjective_pairing.
  - assert (responses (snd (run script_name "What is your name?" gemini 5 false true))
            = script_name) as -> by (vm_compute; reflexivity).
    unfold script_name. split_calls.
    split; [apply known_make_random_name|reflexivity].
  - vm_compute. discriminate.
  - discriminate.
Defined.

Lemma unsupported_model_makes_no_call_witness :
  @supports_function_calling env "gpt-2" = false /\
  exists st',
    @run_agent env 10 "hello" "gpt-2" 5 true true (@init_state env script_name) =
      (Raise unsupported_model, st') /\
    completions st' = [] /\ provider_state st' = script_name /\
    heap st' = heap (@init_state env script_name) /\
    stdout st' = [] /\ sandbox_runs st' = [].
Proof.
  split; [reflexivity|].
  apply (@unsupported_model_makes_no_call env 10 "hello" "gpt-2" 5 true true script_name).
  reflexivity.
Defined.

Lemma unknown_tool_raises_after_resolved_calls_witness :
  exists st',
    @while_loop env 1 gemini 5 partial_message 0 (@init_state env []) =
      (Raise (unrecognized "launch"), st') /\
    completions st' = [] /\ provider_state st' = [].
Proof.
  apply (@unknown_tool_raises_after_resolved_calls env 0 gemini 5
           partial_message 0 (@init_state env []) [good_1; good_2] bad_3 [good_4]).
  - reflexivity.
  - lia.
  - reflexivity.
  - repeat constructor; try apply known_make_random_name.
  - apply unknown_launch.
Defined.

Lemma unknown_tool_failure_keeps_partial_effects_witness :
  let st := @init_state env [] in
  let st' := snd (@while_loop env 1 gemini 5 partial_message 0 st) in
  "launch" = fn_name (tc_function bad_3) /\
  messages st' =
    messages st ++ [partial_message] ++
    @tool_results env (names_drawn st) [good_1; good_2] /\
  invoked st' = invoked st ++ ["make_random_name"; "make_random_name"] /\
  names_drawn st' = 2%nat /\
  completions st' = completions st.
Proof.
  cbv zeta.
  apply (@unknown_tool_failure_keeps_partial_effects env 0 gemini 5
           partial_message 0 (@init_state env []) [good_1; good_2] bad_3 [good_4]).
  - reflexivity.
  - lia.
  - reflexivity.
  - repeat constructor; apply known_make_random_name.
  - apply unknown_launch.
  - vm_compute. reflexivity.
Defined.

Lemma extracted_code_is_first_block_witness :
  exists code,
    extract_code two_blocks = Some code /\
    between_delimiters two_blocks code /\
    sandbox_runs (snd (@report env true (assistant (Some two_blocks) [])
                         (@init_state env []))) =
      sandbox_runs (@init_state env []) ++ [sandbox_request_for code] /\
    extract_code two_blocks = Some "print(1)".
Proof.
  apply (@extracted_code_is_first_block env two_blocks 4).
  - apply StrFacts.find_Some. reflexivity.
  - exists 8%nat. split; [simpl; lia|reflexivity].
  - reflexivity.
Defined.

Lemma unclosed_block_runs_remainder_witness :
  should_execute true (content (assistant (Some close_first) [])) = true /\
  extract_code close_first = Some "print(2)" /\
  sandbox_runs (snd (@report env true (assistant (Some close_first) [])
                       (@init_state env []))) =
    [sandbox_request_for "print(2)"].
Proof.
  apply (@unclosed_block_runs_remainder env close_first 27
           (assistant (Some close_first) []) (@init_state env [])).
  - apply StrFacts.find_Some. reflexivity.
  - exists 4%nat. split; [simpl; lia|reflexivity].
  - intros q Hq. destruct (decide (q < 27)%nat) as [|Hge]; [done|]. exfalso.
    apply (occurs_at_drop_inv _ _ _ 27) in Hq; [|lia].
    revert Hq. by apply StrFacts.contains_false.
  - reflexivity.
Defined.

Lemma reflection_makes_one_raw_call_witness :
  let st := @init_state env script_reflect_calls in
  let st1 := snd (@tool_call_loop env 10 "hello" gemini 5 st) in
  let response := assistant (Some "A") [] in
  @tool_call_loop env 10 "hello" gemini 5 st = (Ok response, st1) /\
  exists reply c st3 st3',
    @run_agent env 10 "hello" gemini 5 true true st = (Ok tt, st3) /\
    messages st3 =
      messages st1 ++ [user_message (reflect_prompt (content response))] /\
    (forall text, content response = Some text ->
       reflect_prompt (content response) =
       "Please reflect on your last output, which was '" +:+ text +:+
       "'. If you can improve it, please do so and provide a new response.") /\
    completions st3 = completions st1 ++ [c] /\
    call_messages c = messages st3 /\ call_response c = reply /\
    rounds st3 = rounds st1 /\ invoked st3 = invoked st1 /\
    take 2 (stdout st3) =
      take 2 (stdout st1 ++ [">>> LLM Response:"; py_str (content reply)]) /\
    @run_agent env 10 "hello" gemini 5 false true st = (Ok tt, st3') /\
    completions st3' = completions st1.
Proof.
  cbv zeta.
  assert (@tool_call_loop env 10 "hello" gemini 5 (@init_state env script_reflect_calls)
          = (Ok (assistant (Some "A") []),
             snd (@tool_call_loop env 10 "hello" gemini 5
                    (@init_state env script_reflect_calls)))) as H
    by (vm_compute; reflexivity).
  split; [exact H|].
  exact (@reflection_makes_one_raw_call env 10 "hello" gemini 5 true _ _ _ H).
Defined.

End Concrete.

(** ** More on tool resolution: the failures on arguments *)

Section Arguments.
Context {E : Env}.

Lemma empty_object_or_not (v : json) : v = JObj [] \/ v <> JObj [].
Proof. destruct v as [| | | | | |[|]]; (by left) || by right. Qed.



(** A known call whose arguments do not parse, or parse to something other
    than the empty object, fails before the tool is invoked. *)
Lemma resolve_malformed tc st :
  known (fn_name (tc_function tc)) ->
  json_loads (fn_arguments (tc_function tc)) = None ->
  resolve_tool_call (possible_functions_of TOOLS) tc st =
  (Raise (JSONDecodeError (fn_arguments (tc_function tc))), st).
Proof.
  intros Hk Hv. pose proof (proj1 (known_iff _) Hk) as Hn.
  unfold resolve_tool_call. rewrite bool_decide_eq_true_2 by done. simpl.
  unfold bind. by rewrite Hn, Hv.
Qed.

Lemma resolve_not_empty_object tc st v :
  known (fn_name (tc_function tc)) ->
  json_loads (fn_arguments (tc_function tc)) = Some v ->
  v <> JObj [] ->
  exists msg,
    resolve_tool_call (possible_functions_of TOOLS) tc st =
    (Raise (TypeError msg), st).
Proof.
  intros Hk Hv Hne. pose proof (proj1 (known_iff _) Hk) as Hn.
  unfold resolve_tool_call. rewrite bool_decide_eq_true_2 by done. simpl.
  unfold bind. rewrite Hn, Hv. simpl.
  destruct v as [| | | | | |[|[k x] fields]];
    first [by exfalso; apply Hne|by eexists].
Qed.



(** A loop that gets through its list resolved every call of it. *)
Lemma for_tool_calls_ok_inv tcs st u st' :
  for_tool_calls (possible_functions_of TOOLS) tcs st = (Ok u, st') ->
  Forall accepted tcs /\ st' = after_tools st tcs.
Proof.
  revert st; induction tcs as [|tc rest IH]; intros st; simpl.
  - intros [= _ <-]. by rewrite after_tools_nil.
  - unfold bind.
    destruct (decide (fn_name (tc_function tc) ∈ possible_functions_of TOOLS))
      as [Hk|Hk]; [|by rewrite resolve_unknown].
    destruct (resolve_known tc st Hk) as [[Ha ->]|[_ (e & _ & ->)]]; [|done].
    intros [Hrest ->]%IH. rewrite after_tools_cons. split; [by constructor|done].
Qed.

(** The loop over a list whose first failing call is [bad], a known call
    with arguments the tool does not accept. *)
Lemma for_tool_calls_rejected pre bad post st :
  Forall accepted pre -> known (fn_name (tc_function bad)) ->
  (json_loads (fn_arguments (tc_function bad)) = None /\
   for_tool_calls (possible_functions_of TOOLS) (pre ++ bad :: post) st =
     (Raise (JSONDecodeError (fn_arguments (tc_function bad))), after_tools st pre)) \/
  (exists v, json_loads (fn_arguments (tc_function bad)) = Some v /\ v <> JObj [] /\
     exists msg,
       for_tool_calls (possible_functions_of TOOLS) (pre ++ bad :: post) st =
       (Raise (TypeError msg), after_tools st pre)) \/
  accepted bad.
Proof.
  intros H Hbad; revert st; induction H as [|tc rest Htc _ IH]; intros st; simpl.
  - unfold bind. rewrite after_tools_nil.
    destruct (json_loads (fn_arguments (tc_function bad))) as [v|] eqn:Hv.
    + destruct (empty_object_or_not v) as [->|Hne]; [by right; right|].
      right; left. exists v. split; [done|]. split; [done|].
      destruct (resolve_not_empty_object bad st v Hbad Hv Hne) as [msg ->]. eauto.
    + left. split; [done|]. by rewrite resolve_malformed.
  - unfold bind. rewrite resolve_accepted by done.
    destruct (IH (after_tools st [tc])) as [[Hv ->]|[(v & Hv & Hne & msg & ->)|Ha]].
    + left. by rewrite after_tools_cons.
    + right; left. exists v. rewrite after_tools_cons. eauto.
    + by right; right.
Qed.

End Arguments.

(** ** More on the loop: what is sent, how often, and what is kept *)

Section LoopHistory.
Context {E : Env}.

(** The provider call, with all that it logs and all that it leaves. *)
Lemma litellm_completion_call model st :
  exists c st',
    litellm_completion model st = (Ok (call_response c), st') /\
    completions st' = completions st ++ [c] /\
    call_messages c = messages st /\ call_model c = model /\
    call_tool_choice c = "auto" /\
    call_response c =
      (completion (provider_state st) model (messages st) (TOOLS_of st) "auto").1.2 /\
    messages st' = messages st /\ rounds st' = rounds st /\
    invoked st' = invoked st /\ names_drawn st' = names_drawn st /\
    sandbox_runs st' = sandbox_runs st /\ stdout st' = stdout st.
Proof.
  unfold litellm_completion.
  destruct (completion _ _ _ _ _) as [[p' r] tools_after] eqn:Hc.
  eexists (mkCompletionRecord _ _ _ _ _ r _), _.
  split; [reflexivity|]. simpl. by repeat split.
Qed.






(** How many provider calls a loop makes: one for each round it enters,
    but for the round that raised; and it enters at most as many rounds as
    the cap leaves. *)
Lemma while_loop_calls model max_callbacks fuel :
  forall response callbacks st out st',
  while_loop fuel model max_callbacks response callbacks st = (out, st') ->
  exists n,
    (n <= Z.to_nat (max_callbacks + 1 - callbacks))%nat /\
    length (rounds st') = (length (rounds st) + n)%nat /\
    match out with
    | Raise _ => S (length (completions st')) = (length (completions st) + n)%nat
    | _ => length (completions st') = (length (completions st) + n)%nat
    end.
Proof.
  induction fuel as [|fuel IH]; intros response callbacks st out st';
    rewrite while_loop_unfold;
    destruct (has_tool_calls response && _) eqn:Hg;
    try (intros [= <- <-]; exists 0%nat; split; [lia|]; split; lia).
  apply guard_true in Hg as [_ Hg].
  destruct (resolve_round _ _ _) as [o st1] eqn:H1.
  apply resolve_round_frame in H1 as (Ho & _ & Hc1 & Hr1 & _).
  destruct o as [[]|e|]; [|intros [= <- <-]|done].
  - destruct (litellm_completion_call model st1)
      as (c & st2 & -> & Hc2 & _ & _ & _ & _ & _ & Hr2 & _).
    intros (n & Hn & Hr & Hc)%IH. exists (S n).
    rewrite Hr2, Hr1, length_app in Hr. rewrite Hc2, Hc1, length_app in Hc.
    simpl in Hr, Hc. split; [lia|]. split; [lia|]. destruct out; lia.
  - exists 1%nat. rewrite Hr1, Hc1, length_app. simpl. split; [lia|]. split; lia.
Qed.

Lemma calls_of_cons r rs : calls_of (r :: rs) = tool_calls_of r ++ calls_of rs.
Proof. reflexivity. Qed.

(** A loop that returns has resolved, one after the other, every response
    but the one it returns: the history gained exactly these responses, each
    followed by the results of its calls, and the generator was used once
    for each call. *)
Lemma while_loop_ok model max_callbacks fuel :
  forall response callbacks st r st',
  tools_intact st ->
  while_loop fuel model max_callbacks response callbacks st = (Ok r, st') ->
  exists resolved rs,
    response :: rs = resolved ++ [r] /\
    responses st' = responses st ++ rs /\
    messages st' = messages st ++ history_of (names_drawn st) resolved /\
    names_drawn st' = (length (calls_of resolved) + names_drawn st)%nat /\
    invoked st' =
      invoked st ++ ((fun tc => fn_name (tc_function tc)) <$> calls_of resolved) /\
    Forall (fun x => has_tool_calls x = true /\ Forall accepted (tool_calls_of x))
           resolved /\
    rounds st' = rounds st ++ (Z.add callbacks <$> counter_values (length resolved)).
Proof.
  induction fuel as [|fuel IH]; intros response callbacks st r st' Hi;
    rewrite while_loop_unfold;
    destruct (has_tool_calls response && _) eqn:Hg;
    try (intros [= <- <-]; exists [], []; simpl; by rewrite !app_nil_r);
    try done.
  apply guard_true in Hg as [Hg1 Hg2].
  rewrite resolve_round_unfold, (tools_intact_TOOLS_of _ Hi).
  destruct (for_tool_calls _ _ _) as [[[]|e|] st1] eqn:H1; [|done..].
  apply for_tool_calls_ok_inv in H1 as [Hacc ->].
  set (st1 := after_tools _ _).
  assert (tools_intact st1) as Hi1 by by apply (tools_intact_same st).
  destruct (litellm_completion_spec model st1)
    as (r1 & st2 & -> & Hm2 & Hr2 & Hv2 & Hn2 & _ & _ & (c & Hc2 & Hcr & _) & Hi2).
  intros (resolved & rs & Hsplit & Hresp & Hmsg & Hn & Hinv & Hall & Hround)%IH;
    [|by apply Hi2].
  exists (response :: resolved), (r1 :: rs). split; [by rewrite Hsplit|].
  split.
  { rewrite Hresp. unfold responses. rewrite Hc2, fmap_app. simpl.
    by rewrite Hcr, <- app_assoc. }
  split.
  { rewrite Hmsg, Hm2, Hn2. subst st1. simpl.
    by rewrite <- !app_assoc. }
  split.
  { rewrite Hn, Hn2, calls_of_cons, length_app. subst st1. simpl. lia. }
  split.
  { rewrite Hinv, Hv2, calls_of_cons, fmap_app. subst st1. simpl.
    by rewrite <- app_assoc. }
  split; [by constructor|].
  rewrite Hround, Hr2. cbn [length]. rewrite counter_values_S.
  subst st1. cbn [rounds after_tools set_messages log_round].
  by rewrite <- app_assoc.
Qed.


(** Against a provider that always asks for the tool, a loop with enough
    fuel enters every round the cap leaves and returns a response whose
    calls it has not resolved. *)
Lemma while_loop_insistent model max_callbacks fuel :
  always_calls ->
  forall response callbacks st,
  tools_intact st ->
  has_tool_calls response = true -> Forall accepted (tool_calls_of response) ->
  callbacks <= max_callbacks + 1 ->
  (Z.to_nat (max_callbacks + 1 - callbacks) <= fuel)%nat ->
  exists r st',
    while_loop fuel model max_callbacks response callbacks st = (Ok r, st') /\
    has_tool_calls r = true /\
    length (rounds st') =
      (length (rounds st) + Z.to_nat (max_callbacks + 1 - callbacks))%nat.
Proof.
  intros Halways.
  induction fuel as [|fuel IH]; intros response callbacks st Hi Hh Hacc Hc Hf;
    rewrite while_loop_unfold, Hh; simpl;
    destruct (Z.leb_spec callbacks max_callbacks) as [Hle|Hgt];
    try (exists response, st; split; [done|]; split; [done|lia]).
  - lia.
  - rewrite resolve_round_unfold, (tools_intact_TOOLS_of _ Hi).
    rewrite for_tool_calls_accepted by done.
    set (st1 := after_tools _ _).
    assert (tools_intact st1) as Hi1 by by apply (tools_intact_same st).
    destruct (litellm_completion_call model st1)
      as (c & st2 & H2 & Hc2 & _ & _ & _ & Hresp & _ & Hr2 & _).
    destruct (litellm_completion_spec model st1) as (r1 & st2' & H2' & Hrest).
    rewrite H2 in H2'. injection H2' as <- <-. rewrite H2.
    destruct (Halways (provider_state st1) model (messages st1) (TOOLS_of st1) "auto")
      as [Hh1 Hacc1]. rewrite <- Hresp in Hh1, Hacc1.
    destruct (IH (call_response c) (callbacks + 1) st2)
      as (r & st' & Hw & Hhr & Hrounds);
      [by apply Hrest|done|done|lia|lia|].
    exists r, st'. split; [done|]. split; [done|].
    rewrite Hrounds, Hr2. subst st1. simpl. rewrite length_app. simpl. lia.
Qed.

End LoopHistory.

(** ** More on the string operations: cutting and gluing *)

Module StrCut.
Import Str StrFacts.

Lemma take_append_drop n s : take n s +:+ drop n s = s.
Proof.
  revert s; induction n as [|n IH]; intros [|a s]; simpl;
    rewrite ?append_nil, ?append_cons; try done.
  by rewrite IH.
Qed.

Lemma append_empty s : s +:+ "" = s.
Proof. induction s as [|a s IH]; rewrite ?append_cons; [done|by rewrite IH]. Qed.

Lemma length_take n s : String.length (take n s) = Nat.min n (String.length s).
Proof.
  revert s; induction n as [|n IH]; intros [|a s]; simpl; auto.
Qed.

Lemma drop_take q j s : drop q (take j s) = take (j - q) (drop q s).
Proof.
  revert j s; induction q as [|q IH]; intros j s; simpl.
  - by rewrite Nat.sub_0_r.
  - destruct j as [|j]; destruct s as [|a s]; simpl; try done;
      first [apply IH|by destruct (j - q)%nat|by destruct (drop q s)].
Qed.

Lemma startswith_take p n s :
  startswith p (take n s) = true -> startswith p s = true.
Proof.
  revert n s; induction p as [|a p IH]; intros n s; [done|].
  destruct n as [|n], s as [|b s]; simpl; try done.
  destruct (Ascii.eqb a b); [apply IH|done].
Qed.

Lemma occurs_at_take sub s j q :
  occurs_at sub (take j s) q -> occurs_at sub s q.
Proof.
  intros [Hq Hs]. rewrite length_take in Hq. rewrite drop_take in Hs.
  split; [lia|]. by eapply startswith_take.
Qed.

(** The part before the first occurrence of a non-empty [sub] holds no
    occurrence of it. *)
Lemma take_first_free sub s j :
  sub <> "" -> first_occurrence sub s j ->
  forall q, ~ occurs_at sub (take j s) q.
Proof.
  intros Hne [[Hj _] Hfirst] q Hq.
  pose proof Hq as [Hlen Hs]. rewrite length_take in Hlen.
  destruct (decide (q < j)%nat) as [Hlt|Hge].
  - apply (Hfirst q Hlt). by eapply occurs_at_take.
  - assert (q = j) as -> by lia.
    rewrite drop_take, Nat.sub_diag in Hs. simpl in Hs.
    by destruct sub.
Qed.

End StrCut.

Section ExtractionShape.
Import Str StrFacts StrCut.

(** X8.  The extracted code never holds a closing delimiter. *)
Theorem extract_code_no_close text code :
  extract_code text = Some code -> contains CLOSE code = false.
Proof.
  unfold extract_code. destruct (split1 OPEN text !! 1%nat) as [after|]; [|done].
  rewrite split1_head. intros [= <-].
  destruct (find CLOSE after) as [j|] eqn:Hj.
  - apply contains_false. apply take_first_free; [done|by apply find_Some].
  - unfold contains. by rewrite Hj.
Qed.

(** X9.  Every text that holds an opening delimiter is cut in four by the
    extraction: what comes before the first opening delimiter, that
    delimiter, the code, and a rest that is empty or starts with a closing
    delimiter. *)
Theorem extract_code_cut text :
  contains OPEN text = true ->
  exists before code rest,
    extract_code text = Some code /\
    text = before +:+ OPEN +:+ code +:+ rest /\
    first_occurrence OPEN text (String.length before) /\
    (rest = "" \/ startswith CLOSE rest = true).
Proof.
  unfold contains. destruct (find OPEN text) as [i|] eqn:Hi; [intros _|done].
  pose proof (proj1 (find_Some _ _ _) Hi) as Hfirst.
  destruct Hfirst as [[Hlen Hs] Hmin].
  pose proof (startswith_decompose _ _ Hs) as Hd. rewrite str_drop_drop in Hd.
  assert (String.length (take i text) = i) as Hbefore
    by (rewrite length_take; lia).
  rewrite (extract_code_found _ _ Hi). cbv zeta.
  set (after := drop (i + String.length OPEN) text) in *.
  destruct (find CLOSE after) as [j|] eqn:Hj.
  - exists (take i text), (take j after), (drop j after).
    split; [done|]. rewrite take_append_drop, <- Hd, take_append_drop, Hbefore.
    split; [done|]. split; [by apply find_Some|].
    right. by apply find_Some in Hj as [[_ ?] _].
  - exists (take i text), after, "".
    split; [done|]. rewrite append_empty, <- Hd, take_append_drop, Hbefore.
    split; [done|]. split; [by apply find_Some|by left].
Qed.

End ExtractionShape.

(** ** Further properties of a run *)

Section RunFacts.
Context {E : Env}.



(** X3.  With a negative cap no round is ever entered: whatever the first
    response asks for, the run (without [reflect]) ends normally after one
    provider call, the history is the seed, no tool was invoked, and the
    content of that response is printed. *)
Theorem negative_cap_resolves_nothing
    fuel prompt model max_callbacks execute_code p :
  max_callbacks < 0 ->
  supports_function_calling model = true ->
  exists r0 st',
    run_agent fuel prompt model max_callbacks false execute_code (init_state p) =
      (Ok tt, st') /\
    responses st' = [r0] /\
    messages st' = seed_messages prompt /\
    rounds st' = [] /\ invoked st' = [] /\
    printed_answer st' = Some (py_str (content r0)).
Proof.
  intros Hneg Hs.
  destruct (tool_call_loop_supported fuel prompt model max_callbacks
    (init_state p) Hs) as (r0 & st0 & Hc & Hw).
  destruct (litellm_completion_call model
    (set_messages (seed_messages prompt) (init_state p)))
    as (c & st0' & Hc' & Hc0 & _ & _ & _ & _ & Hm0 & Hr0 & Hv0 & _ & _ & Hp0).
  rewrite Hc in Hc'. injection Hc' as Hcr <-.
  assert (while_loop fuel model max_callbacks r0 0 st0 = (Ok r0, st0)) as Hloop.
  { rewrite while_loop_unfold.
    replace (0 <=? max_callbacks)%Z with false by (symmetry; apply Z.leb_gt; lia).
    by rewrite andb_false_r. }
  destruct (report_frame execute_code r0 st0)
    as (st3 & Hrep & _ & Hc3 & Hm3 & Hr3 & Hv3 & Hp3).
  exists r0, st3. split.
  { unfold run_agent, bind. by rewrite Hw, Hloop. }
  split; [unfold responses; rewrite Hc3, Hc0; simpl; by rewrite Hcr|].
  split; [by rewrite Hm3, Hm0|]. split; [by rewrite Hr3, Hr0|].
  split; [by rewrite Hv3, Hv0|].
  apply printed_answer_of. by rewrite Hp3, Hp0.
Qed.

(** X4.  The cap is attained: against a provider that always asks for the
    tool with arguments it accepts, a run with a non-negative cap enters
    exactly [max_callbacks + 1] rounds, makes [max_callbacks + 2] provider
    calls and ends normally, printing the content of a last response whose
    tool calls were never resolved. *)
Theorem cap_is_attained fuel prompt model max_callbacks execute_code p :
  always_calls ->
  0 <= max_callbacks ->
  (Z.to_nat (max_callbacks + 1) <= fuel)%nat ->
  supports_function_calling model = true ->
  exists r st',
    run_agent fuel prompt model max_callbacks false execute_code (init_state p) =
      (Ok tt, st') /\
    length (rounds st') = Z.to_nat (max_callbacks + 1) /\
    length (completions st') = Z.to_nat (max_callbacks + 2) /\
    last (responses st') = Some r /\ has_tool_calls r = true /\
    printed_answer st' = Some (py_str (content r)).
Proof.
  intros Halways Hm Hf Hs.
  destruct (tool_call_loop_supported fuel prompt model max_callbacks
    (init_state p) Hs) as (r0 & st0 & Hc & Hw).
  destruct (litellm_completion_call model
    (set_messages (seed_messages prompt) (init_state p)))
    as (c & st0' & Hc' & Hc0 & _ & _ & _ & Hresp & _ & Hr0 & _).
  rewrite Hc in Hc'. injection Hc' as Hcr <-.
  destruct (litellm_completion_spec model
    (set_messages (seed_messages prompt) (init_state p)))
    as (r0' & st0' & Hc' & Hrest).
  rewrite Hc in Hc'. injection Hc' as <- <-.
  destruct Hrest as (_ & _ & _ & _ & _ & _ & _ & Hi0).
  destruct (Halways (provider_state (set_messages (seed_messages prompt) (init_state p)))
    model (messages (set_messages (seed_messages prompt) (init_state p)))
    (TOOLS_of (set_messages (seed_messages prompt) (init_state p))) "auto")
    as [Hh0 Hacc0].
  rewrite <- Hresp, <- Hcr in Hh0, Hacc0.
  destruct (while_loop_insistent model max_callbacks fuel Halways r0 0 st0)
    as (r & st1 & Hloop & Hhr & Hrounds);
    [apply Hi0, (tools_intact_same (init_state p)); [done..|apply tools_intact_init]
    |done|done|lia|by rewrite Z.sub_0_r|].
  rewrite Z.sub_0_r, Hr0 in Hrounds. simpl in Hrounds.
  pose proof (while_loop_calls _ _ _ _ _ _ _ _ Hloop) as (n & _ & Hn & Hcalls).
  rewrite Hr0, Hc0 in *. simpl in Hn, Hcalls.
  assert (tools_intact st0) as Hi0'
    by (apply Hi0, (tools_intact_same (init_state p)); [done..|apply tools_intact_init]).
  pose proof (while_loop_spec _ _ _ _ _ _ _ _ Hi0' Hloop)
    as (_ & _ & Hp1 & rs & Hrs & Hlast & _).
  destruct (litellm_completion_call model
    (set_messages (seed_messages prompt) (init_state p)))
    as (c2 & st0'' & Hc'' & _ & _ & _ & _ & _ & _ & _ & _ & _ & _ & Hp0).
  rewrite Hc in Hc''. injection Hc'' as _ <-.
  destruct (report_frame execute_code r st1)
    as (st3 & Hrep & _ & Hc3 & _ & Hr3 & _ & Hp3).
  exists r, st3. split.
  { unfold run_agent, bind. by rewrite Hw, Hloop. }
  split; [rewrite Hr3; lia|]. split; [rewrite Hc3; lia|].
  split.
  { unfold responses in Hrs |- *. rewrite Hc3, Hrs, Hc0. simpl. by rewrite <- Hcr. }
  split; [done|]. apply printed_answer_of. by rewrite Hp3, Hp1, Hp0.
Qed.

(** X5.  When the first phase of a run returns, the responses received are
    the ones it resolved followed by the one it returns; the history is the
    seed followed, for each resolved response in order, by that response
    and one tool message per call of it, the k-th tool message of the run
    carrying the k-th generated name; every resolved call was accepted; and
    the response returned is not part of the history. *)
Theorem loop_history_shape fuel prompt model max_callbacks p r st1 :
  tool_call_loop fuel prompt model max_callbacks (init_state p) = (Ok r, st1) ->
  exists resolved,
    responses st1 = resolved ++ [r] /\
    messages st1 = seed_messages prompt ++ history_of 0 resolved /\
    names_drawn st1 = length (calls_of resolved) /\
    invoked st1 = ((fun tc => fn_name (tc_function tc)) <$> calls_of resolved) /\
    Forall (fun x => has_tool_calls x = true /\ Forall accepted (tool_calls_of x))
           resolved /\
    rounds st1 = counter_values (length resolved).
Proof.
  intros H1.
  destruct (supports_function_calling model) eqn:Hs;
    [|by rewrite tool_call_loop_unsupported in H1].
  destruct (tool_call_loop_supported fuel prompt model max_callbacks
    (init_state p) Hs) as (r0 & st0 & Hc & Hw).
  rewrite Hw in H1.
  destruct (litellm_completion_spec model
    (set_messages (seed_messages prompt) (init_state p)))
    as (r0' & st0' & Hc' & Hm0 & Hr0 & Hv0 & Hn0 & _ & _ & (c & Hc0 & Hcr & _) & Hi0).
  rewrite Hc in Hc'. injection Hc' as <- <-.
  apply while_loop_ok in H1
    as (resolved & rs & Hsplit & Hresp & Hmsg & Hn & Hinv & Hall & Hround);
    [|apply Hi0, (tools_intact_same (init_state p)); [done..|apply tools_intact_init]].
  exists resolved. split.
  { rewrite Hresp. unfold responses. rewrite Hc0. simpl. by rewrite Hcr, Hsplit. }
  split; [by rewrite Hmsg, Hm0, Hn0|]. split; [rewrite Hn, Hn0; simpl; lia|].
  split; [by rewrite Hinv, Hv0|]. split; [done|].
  by rewrite Hround, Hr0, counter_values_from_0.
Qed.

(** The state a failed round leaves, in its parts. *)
Lemma failed_round_state callbacks message st pre :
  let st' := after_tools
    (set_messages (messages st ++ [message]) (log_round callbacks st)) pre in
  messages st' = messages st ++ [message] ++ tool_results (names_drawn st) pre /\
  invoked st' = invoked st ++ ((fun tc => fn_name (tc_function tc)) <$> pre) /\
  names_drawn st' = (length pre + names_drawn st)%nat /\
  completions st' = completions st.
Proof. simpl. by rewrite <- app_assoc. Qed.

(** X6.  In a round the cap allows, if the calls before [bad] are accepted
    and [bad] names the known tool with arguments that do not parse, the
    loop raises the JSON error on those arguments; the tool was invoked for
    the earlier calls only, whose results are in the history after the
    assistant message, and no provider call was made. *)
Theorem malformed_arguments_fail_the_round
    fuel model max_callbacks message callbacks st pre bad post :
  TOOLS_of st = TOOLS ->
  callbacks <= max_callbacks ->
  tool_calls message = Some (pre ++ bad :: post) ->
  Forall accepted pre ->
  known (fn_name (tc_function bad)) ->
  json_loads (fn_arguments (tc_function bad)) = None ->
  exists st',
    while_loop (S fuel) model max_callbacks message callbacks st =
      (Raise (JSONDecodeError (fn_arguments (tc_function bad))), st') /\
    messages st' = messages st ++ [message] ++ tool_results (names_drawn st) pre /\
    invoked st' = invoked st ++ ((fun tc => fn_name (tc_function tc)) <$> pre) /\
    names_drawn st' = (length pre + names_drawn st)%nat /\
    completions st' = completions st.
Proof.
  intros HT Hc Hm Hpre Hbad Hv.
  destruct (has_tool_calls_of _ _ Hm) as [Htcs Hh].
  rewrite while_loop_unfold, (proj2 (guard_true _ _ _));
    [|split; [apply Hh; by destruct pre|done]].
  rewrite resolve_round_unfold, HT, Htcs.
  destruct (for_tool_calls_rejected pre bad post
    (set_messages (messages st ++ [message]) (log_round callbacks st)) Hpre Hbad)
    as [[_ ->]|[(v & Hv' & _)|[_ Ha]]]; [|congruence..].
  eexists. split; [reflexivity|]. apply failed_round_state.
Qed.

(** X7.  In the same situation, if the arguments of [bad] parse to anything
    but the empty object (another kind of value, or an object with a key),
    the loop raises a TypeError, again with the tool invoked for the
    earlier calls only and no provider call made. *)
Theorem rejected_keywords_fail_the_round
    fuel model max_callbacks message callbacks st pre bad post v :
  TOOLS_of st = TOOLS ->
  callbacks <= max_callbacks ->
  tool_calls message = Some (pre ++ bad :: post) ->
  Forall accepted pre ->
  known (fn_name (tc_function bad)) ->
  json_loads (fn_arguments (tc_function bad)) = Some v ->
  v <> JObj [] ->
  exists msg st',
    while_loop (S fuel) model max_callbacks message callbacks st =
      (Raise (TypeError msg), st') /\
    messages st' = messages st ++ [message] ++ tool_results (names_drawn st) pre /\
    invoked st' = invoked st ++ ((fun tc => fn_name (tc_function tc)) <$> pre) /\
    names_drawn st' = (length pre + names_drawn st)%nat /\
    completions st' = completions st.
Proof.
  intros HT Hc Hm Hpre Hbad Hv Hne.
  destruct (has_tool_calls_of _ _ Hm) as [Htcs Hh].
  rewrite while_loop_unfold, (proj2 (guard_true _ _ _));
    [|split; [apply Hh; by destruct pre|done]].
  rewrite resolve_round_unfold, HT, Htcs.
  destruct (for_tool_calls_rejected pre bad post
    (set_messages (messages st ++ [message]) (log_round callbacks st)) Hpre Hbad)
    as [[Hv' _]|[(v' & _ & _ & msg & ->)|[_ Ha]]]; [congruence| |congruence].
  eexists msg, _. split; [reflexivity|]. apply failed_round_state.
Qed.



End RunFacts.

(** *** Instances of the further properties *)

Section MoreConcrete.
Import Demo.

Lemma insistent_always_calls : @always_calls insistent.
Proof.
  intros p model msgs tools choice. simpl. split; [reflexivity|].
  repeat constructor.
Qed.

Lemma negative_cap_resolves_nothing_witness :
  -1 < 0 /\ @supports_function_calling env gemini = true /\
  exists r0 st',
    @run_agent env 10 "hello" gemini (-1) false true
      (@init_state env [always_calling]) = (Ok tt, st') /\
    responses st' = [r0] /\
    messages st' = seed_messages "hello" /\
    rounds st' = [] /\ invoked st' = [] /\
    printed_answer st' = Some (py_str (content r0)).
Proof.
  split; [lia|]. split; [reflexivity|].
  apply (@negative_cap_resolves_nothing env 10 "hello" gemini (-1) true
           [always_calling]); [lia|reflexivity].
Defined.

Lemma cap_is_attained_witness :
  exists r st',
    @run_agent insistent 2 "hello" gemini 1 false true (@init_state insistent tt) =
      (Ok tt, st') /\
    length (rounds st') = Z.to_nat (1 + 1) /\
    length (completions st') = Z.to_nat (1 + 2) /\
    last (responses st') = Some r /\ has_tool_calls r = true /\
    printed_answer st' = Some (py_str (content r)).
Proof.
  apply (@cap_is_attained insistent 2 "hello" gemini 1 true tt).
  - apply insistent_always_calls.
  - lia.
  - simpl; lia.
  - reflexivity.
Defined.

Lemma loop_history_shape_witness :
  exists resolved,
    responses (snd (@tool_call_loop env 10 "What is your name?" gemini 5
                      (@init_state env script_name))) =
      resolved ++ [assistant (Some "My name is Jordan Lee.") []] /\
    messages (snd (@tool_call_loop env 10 "What is your name?" gemini 5
                     (@init_state env script_name))) =
      seed_messages "What is your name?" ++ @history_of env 0 resolved /\
    names_drawn (snd (@tool_call_loop env 10 "What is your name?" gemini 5
                        (@init_state env script_name))) =
      length (calls_of resolved) /\
    invoked (snd (@tool_call_loop env 10 "What is your name?" gemini 5
                    (@init_state env script_name))) =
      ((fun tc => fn_name (tc_function tc)) <$> calls_of resolved) /\
    Forall (fun x => has_tool_calls x = true /\
                     Forall (@accepted env) (tool_calls_of x)) resolved /\
    rounds (snd (@tool_call_loop env 10 "What is your name?" gemini 5
                   (@init_state env script_name))) =
      counter_values (length resolved).
Proof.
  apply (@loop_history_shape env 10 "What is your name?" gemini 5 script_name).
  vm_compute. reflexivity.
Defined.

Lemma malformed_arguments_fail_the_round_witness :
  exists st',
    @while_loop env 1 gemini 5 malformed_message 0 (@init_state env []) =
      (Raise (JSONDecodeError "{"), st') /\
    messages st' =
      [malformed_message] ++ @tool_results env 0 [good_1] /\
    invoked st' = ["make_random_name"] /\
    names_drawn st' = 1%nat /\
    completions st' = [].
Proof.
  apply (@malformed_arguments_fail_the_round env 0 gemini 5 malformed_message 0
           (@init_state env []) [good_1]
           (call_of "call_2" "make_random_name" "{") [good_4]).
  - reflexivity.
  - lia.
  - reflexivity.
  - repeat constructor; apply known_make_random_name.
  - apply known_make_random_name.
  - reflexivity.
Defined.

Lemma rejected_keywords_fail_the_round_witness :
  exists msg st',
    @while_loop env 1 gemini 5 no_mapping_message 0 (@init_state env []) =
      (Raise (TypeError msg), st') /\
    messages st' =
      [no_mapping_message] ++ @tool_results env 0 [good_1] /\
    invoked st' = ["make_random_name"] /\
    names_drawn st' = 1%nat /\
    completions st' = [].
Proof.
  apply (@rejected_keywords_fail_the_round env 0 gemini 5 no_mapping_message 0
           (@init_state env []) [good_1]
           (call_of "call_2" "make_random_name" "[]") [good_4] (JArr [])).
  - reflexivity.
  - lia.
  - reflexivity.
  - repeat constructor; apply known_make_random_name.
  - apply known_make_random_name.
  - reflexivity.
  - discriminate.
Defined.

Lemma extract_code_no_close_witness :
  extract_code nested_open = Some "b<execute_python>c" /\
  Str.contains CLOSE "b<execute_python>c" = false.
Proof.
  split; [reflexivity|].
  apply (extract_code_no_close nested_open). reflexivity.
Defined.

Lemma extract_code_cut_witness :
  Str.contains OPEN close_first = true /\
  exists before code rest,
    extract_code close_first = Some code /\
    close_first = before +:+ OPEN +:+ code +:+ rest /\
    Str.first_occurrence OPEN close_first (String.length before) /\
    (rest = "" \/ Str.startswith CLOSE rest = true).
Proof.
  split; [reflexivity|]. apply extract_code_cut. reflexivity.
Defined.


End MoreConcrete.
